(** * Soil Moisture Guard: the firmware's decision engine, embedded in Rocq

    The development follows [platformio/soil_moisture/src/main.cpp]:
    - machine integers ([uint8_t], [uint16_t]) are [Z] with the wrap-around
      written out;
    - [float] is IEEE 754 binary32, round to nearest even, through the
      Standard Library's [SpecFloat] (on the ATmega328P [double] is binary32
      too, so [100.0/(WET - DRY)] is a binary32 division);
    - the global array [channel_state] is a vector of [NUMBER_OF_CHANNELS]
      records, indexed by [fin NUMBER_OF_CHANNELS];
    - the firmware's effects (pin writes, delays, the e-paper refresh, the
      watchdog sleep) are appended to a trace, and [analogRead] takes its
      results from an input oracle, both threaded by a small state monad. *)

From stdpp Require Import base numbers list vector fin finite.
From Stdlib Require Import ZArith Lia Floats.SpecFloat.

Local Open Scope Z_scope.

(** ** Machine integers *)

Definition u8 (z : Z) : Z := z mod 2 ^ 8.
Definition u16 (z : Z) : Z := z mod 2 ^ 16.

Definition is_u8 (z : Z) : Prop := 0 ≤ z < 2 ^ 8.
Definition is_u16 (z : Z) : Prop := 0 ≤ z < 2 ^ 16.

(** ** binary32 arithmetic *)

Module F32.
Definition prec : Z := 24.
Definition emax : Z := 128.

Definition of_Z (z : Z) : spec_float := binary_normalize prec emax z 0 false.
Definition mul : spec_float → spec_float → spec_float := SFmul prec emax.
Definition add : spec_float → spec_float → spec_float := SFadd prec emax.
Definition div : spec_float → spec_float → spec_float := SFdiv prec emax.
Definition ltb : spec_float → spec_float → bool := SFltb.

(** Conversion to an integer type truncates towards zero. *)
Definition trunc (x : spec_float) : Z :=
  match x with
  | S754_finite s m e =>
      let q := match e with
               | Zneg p => Z.shiftr (Zpos m) (Zpos p)
               | _ => Z.shiftl (Zpos m) e
               end in
      if s then - q else q
  | _ => 0
  end.
End F32.

(** ** Configuration *)

Definition NUMBER_OF_CHANNELS : nat := 4.
Definition PUMP0_MAX_ATTEMPTS : Z := 3.
Definition PUMP0_DURATION : Z := 10.
Definition PUMP1_MAX_ATTEMPTS : Z := 3.
Definition PUMP1_DURATION : Z := 10.
Definition PUMP2_MAX_ATTEMPTS : Z := 3.
Definition PUMP2_DURATION : Z := 10.
Definition PUMP3_MAX_ATTEMPTS : Z := 3.
Definition PUMP3_DURATION : Z := 10.

(** The pins the firmware names. *)
Inductive Pin := D2 | D3 | D4 | A0 | A1 | A2 | A3 | A4 | A5 | A6.

Definition DISP_ENA : Pin := A6.
Definition DEC_EN : Pin := A5.
Definition MOIST_REF : Pin := A4.

Definition LOW : Z := 0.
Definition HIGH : Z := 1.

Definition clk_div : Z := 3.
(** [pow(2, clk_div)], a compile-time constant. *)
Definition clk_scaler : Z := 2 ^ clk_div.
(** [#define BAR_SCALER 1.38]: the binary32 number nearest to 138/100. *)
Definition BAR_SCALER : spec_float := F32.div (F32.of_Z 138) (F32.of_Z 100).

Definition WET_MEASUREMENT : Z := 150.
Definition DRY_MEASUREMENT : Z := 660.
Definition NUMBER_OF_MEASUREMENT_SAMPLES : nat := 4.

(** ** Global state *)

Record ChannelState_T := {
  pump_duration : Z;             (* const uint8_t *)
  max_pump_attempts : Z;         (* const uint8_t *)
  pump_attempts : Z;             (* uint8_t *)
  moisture_level : Z;            (* uint16_t *)
  moisture_level_raw : Z;        (* uint16_t *)
  moisture_reference_level : Z;  (* uint16_t *)
  sensor_analog_pin : Pin;       (* const uint8_t *)
  sensor_dec : Z;                (* const uint8_t *)
  pump_dec : Z                   (* const uint8_t *)
}.

Definition set_pump_attempts (v : Z) (c : ChannelState_T) : ChannelState_T :=
  {| pump_duration := pump_duration c; max_pump_attempts := max_pump_attempts c;
     pump_attempts := v; moisture_level := moisture_level c;
     moisture_level_raw := moisture_level_raw c;
     moisture_reference_level := moisture_reference_level c;
     sensor_analog_pin := sensor_analog_pin c; sensor_dec := sensor_dec c;
     pump_dec := pump_dec c |}.

Definition set_moisture_level (v : Z) (c : ChannelState_T) : ChannelState_T :=
  {| pump_duration := pump_duration c; max_pump_attempts := max_pump_attempts c;
     pump_attempts := pump_attempts c; moisture_level := v;
     moisture_level_raw := moisture_level_raw c;
     moisture_reference_level := moisture_reference_level c;
     sensor_analog_pin := sensor_analog_pin c; sensor_dec := sensor_dec c;
     pump_dec := pump_dec c |}.

Definition set_moisture_level_raw (v : Z) (c : ChannelState_T) : ChannelState_T :=
  {| pump_duration := pump_duration c; max_pump_attempts := max_pump_attempts c;
     pump_attempts := pump_attempts c; moisture_level := moisture_level c;
     moisture_level_raw := v;
     moisture_reference_level := moisture_reference_level c;
     sensor_analog_pin := sensor_analog_pin c; sensor_dec := sensor_dec c;
     pump_dec := pump_dec c |}.

Definition set_moisture_reference_level (v : Z) (c : ChannelState_T) : ChannelState_T :=
  {| pump_duration := pump_duration c; max_pump_attempts := max_pump_attempts c;
     pump_attempts := pump_attempts c; moisture_level := moisture_level c;
     moisture_level_raw := moisture_level_raw c;
     moisture_reference_level := v;
     sensor_analog_pin := sensor_analog_pin c; sensor_dec := sensor_dec c;
     pump_dec := pump_dec c |}.

(** The initialiser of [channel_state]. *)
Definition channel_state_init : vec ChannelState_T NUMBER_OF_CHANNELS :=
  [# Build_ChannelState_T PUMP0_DURATION PUMP0_MAX_ATTEMPTS 0 99 0 25 A0 4 0;
     Build_ChannelState_T PUMP1_DURATION PUMP1_MAX_ATTEMPTS 0 99 0 25 A1 5 1;
     Build_ChannelState_T PUMP2_DURATION PUMP2_MAX_ATTEMPTS 0 99 0 25 A2 6 2;
     Build_ChannelState_T PUMP3_DURATION PUMP3_MAX_ATTEMPTS 0 99 0 25 A3 7 3 ].

(** ** The outside world *)

Inductive Color := EPD_BLACK | EPD_RED.

(** What [updateDisplay] hands to the display for one channel. *)
Record Row := {
  row_number : Z;            (* display.print(i+1) *)
  row_percent : Z;           (* display.print(moisture_level) *)
  row_percent_color : Color;
  row_raw : Z;               (* display.print(moisture_level_raw) *)
  row_attempts : Z;          (* display.print(pump_attempts) *)
  row_attempts_color : Color;
  row_bar_length : Z;        (* fillRect width *)
  row_bar_color : Color;
  row_marker : Z             (* offset of the reference markers *)
}.

Inductive Event :=
  | DigitalWrite (pin : Pin) (val : Z)
  | Delay (ms : Z)
  | DisplayRefresh (rows : list Row)
  | WatchdogSleep (ms : Z).

(** [adc_input w n pin] is what the [n]-th conversion since boot returns
    when it is taken on [pin]. *)
Record World := {
  channel_state : vec ChannelState_T NUMBER_OF_CHANNELS;
  adc_input : nat → Pin → Z;
  adc_reads : nat;
  trace : list Event
}.

Definition M (A : Type) : Type := World → A * World.

#[global] Instance M_ret : MRet M := λ A a w, (a, w).
#[global] Instance M_bind : MBind M :=
  λ A B f m w, let '(a, w') := m w in f a w'.

Definition emit (ev : Event) : M unit := λ w,
  (tt, {| channel_state := channel_state w; adc_input := adc_input w;
          adc_reads := adc_reads w; trace := trace w ++ [ev] |}).

Definition digitalWrite (pin : Pin) (val : Z) : M unit := emit (DigitalWrite pin val).
Definition delay (ms : Z) : M unit := emit (Delay ms).

Definition analogRead (pin : Pin) : M Z := λ w,
  (adc_input w (adc_reads w) pin,
   {| channel_state := channel_state w; adc_input := adc_input w;
      adc_reads := S (adc_reads w); trace := trace w |}).

(** [channel_state[i]] as an rvalue, and an assignment to one of its fields. *)
Definition getChannel (i : fin NUMBER_OF_CHANNELS) : M ChannelState_T := λ w,
  (channel_state w !!! i, w).

Definition modifyChannel (i : fin NUMBER_OF_CHANNELS)
    (f : ChannelState_T → ChannelState_T) : M unit := λ w,
  (tt, {| channel_state := vinsert i (f (channel_state w !!! i)) (channel_state w);
          adc_input := adc_input w; adc_reads := adc_reads w; trace := trace w |}).

(** [for (x : idx) acc = body(x, acc)] *)
Fixpoint for_loop {I A : Type} (idx : list I) (acc : A) (body : I → A → M A) : M A :=
  match idx with
  | [] => mret acc
  | i :: idx' => acc' ← body i acc; for_loop idx' acc' body
  end.

(** The values of [for (uint8_t i = 0; i < NUMBER_OF_CHANNELS; i++)]. *)
Definition all_channels : list (fin NUMBER_OF_CHANNELS) := enum (fin NUMBER_OF_CHANNELS).

(** ** The firmware *)

(** [const float a = 100.0/(WET_MEASUREMENT - DRY_MEASUREMENT);] *)
Definition coefficient_a : spec_float :=
  F32.div (F32.of_Z 100) (F32.of_Z (WET_MEASUREMENT - DRY_MEASUREMENT)).

(** [const float b = -DRY_MEASUREMENT*a;] *)
Definition coefficient_b : spec_float :=
  F32.mul (F32.of_Z (- DRY_MEASUREMENT)) coefficient_a.

(** [(uint8_t)max(0, min(99, percentage))], with the macros of Arduino.h
    written out: [min(a,b)] is [((a)<(b)?(a):(b))] and [max(a,b)] is
    [((a)>(b)?(a):(b))], the integer constants being converted to [float].
    The value that is cast lies in 0..99. *)
Definition saturate (c99 c0 percentage : spec_float) : Z :=
  let capped := if F32.ltb c99 percentage then c99 else percentage in
  let floored := if F32.ltb capped c0 then c0 else capped in
  u8 (F32.trunc floored).

(** [measurement*a + b], saturated; [a], [b] and the two bounds are
    arguments so that they can be given as binary32 literals. *)
Definition percent_of (a b c99 c0 : spec_float) (measurement : Z) : Z :=
  saturate c99 c0 (F32.add (F32.mul (F32.of_Z measurement) a) b).

Definition convertMeasurementToPercent (measurement : Z) : Z :=
  percent_of coefficient_a coefficient_b (F32.of_Z 99) (F32.of_Z 0) measurement.

Definition setDecoder (val : Z) : M unit :=
  digitalWrite DEC_EN LOW;;
  let d4_lvl := Z.land (Z.shiftr val 2) 1 in
  let d3_lvl := Z.land (Z.shiftr val 1) 1 in
  let d2_lvl := Z.land val 1 in
  digitalWrite D2 d2_lvl;;
  digitalWrite D3 d3_lvl;;
  digitalWrite D4 d4_lvl;;
  digitalWrite DEC_EN HIGH.

(** The parameters are [uint8_t]; the subtraction is done in [int], after
    promotion, so it cannot wrap.  Callers convert wider arguments. *)
Definition almostEqual (a b absdiff : Z) : bool :=
  Z.max a b - Z.min a b <=? absdiff.

(** The sampling loop of [updateState]: [n] rounds, each reading the sensor
    and then the potentiometer into the two 16-bit accumulators. *)
Definition sampleLoop (pin : Pin) (n : nat) : M (Z * Z) :=
  for_loop (seq 0 n) (0, 0) (λ _ '(measurement, measurement_ref),
    r ← analogRead pin;
    rr ← analogRead MOIST_REF;
    mret (u16 (measurement + r), u16 (measurement_ref + rr))).

(** The body of the loop over the channels in [updateState]. *)
Definition updateState_channel (i : fin NUMBER_OF_CHANNELS) (update : bool) : M bool :=
  c ← getChannel i;
  setDecoder (sensor_dec c);;
  delay (2000 / clk_scaler);;
  '(measurement, measurement_ref) ←
    sampleLoop (sensor_analog_pin c) NUMBER_OF_MEASUREMENT_SAMPLES;
  digitalWrite DEC_EN LOW;;
  let measurement := measurement / Z.of_nat NUMBER_OF_MEASUREMENT_SAMPLES in
  let measurement_ref := measurement_ref / Z.of_nat NUMBER_OF_MEASUREMENT_SAMPLES in
  let percentage := convertMeasurementToPercent measurement in
  let percentage_ref := u8 (measurement_ref / 10) in
  c ← getChannel i;
  update ←
    (if negb (almostEqual (u8 (moisture_level c)) percentage 2) then
       modifyChannel i (set_moisture_level percentage);;
       modifyChannel i (set_moisture_level_raw measurement);;
       mret (update || true)
     else mret update);
  c ← getChannel i;
  update ←
    (if negb (almostEqual (u8 (moisture_reference_level c)) percentage_ref 2) then
       modifyChannel i (set_moisture_reference_level percentage_ref);;
       mret (update || true)
     else mret update);
  c ← getChannel i;
  if moisture_reference_level c <=? moisture_level c then
    modifyChannel i (set_pump_attempts 0);;
    mret update
  else mret (update || true).

Definition updateState : M bool :=
  for_loop all_channels false updateState_channel.

(** [(uint8_t)(level*BAR_SCALER)] *)
Definition bar_length (level : Z) : Z :=
  u8 (F32.trunc (F32.mul (F32.of_Z level) BAR_SCALER)).

(** What [updateDisplay] draws for channel [i]: the texts, their colours
    and the two lengths; the pixel coordinates are left out. *)

Definition display_row (i : fin NUMBER_OF_CHANNELS) (c : ChannelState_T) : Row :=
  let status :=
    if moisture_level c <? moisture_reference_level c then EPD_RED else EPD_BLACK in
  {| row_number := Z.of_nat (fin_to_nat i) + 1;
     row_percent := moisture_level c;
     row_percent_color := status;
     row_raw := moisture_level_raw c;
     row_attempts := pump_attempts c;
     row_attempts_color :=
       if max_pump_attempts c <=? pump_attempts c then EPD_RED else EPD_BLACK;
     row_bar_length := bar_length (moisture_level c);
     row_bar_color := status;
     row_marker := bar_length (moisture_reference_level c) |}.

(** [display.powerUp()] .. [display.powerDown()] is one [DisplayRefresh]. *)
Definition updateDisplay : M unit :=
  digitalWrite DISP_ENA HIGH;;
  rows ← for_loop all_channels [] (λ i rows,
    c ← getChannel i;
    mret (rows ++ [display_row i c]));
  emit (DisplayRefresh rows);;
  digitalWrite DISP_ENA LOW.

(** The body of the loop over the channels in [runPumps].  The argument of
    [delay] is computed in [int]; it fits for the configured durations. *)
Definition runPumps_channel (i : fin NUMBER_OF_CHANNELS) (_ : unit) : M unit :=
  c ← getChannel i;
  if moisture_level c <? moisture_reference_level c then
    if pump_attempts c <? max_pump_attempts c then
      modifyChannel i (set_pump_attempts (u8 (pump_attempts c + 1)));;
      c ← getChannel i;
      setDecoder (pump_dec c);;
      delay (pump_duration c * 1000 / clk_scaler);;
      digitalWrite DEC_EN LOW
    else mret tt
  else mret tt.

Definition runPumps : M unit :=
  for_loop all_channels tt runPumps_channel.

(** [loop], built without [DEBUG]. *)
Definition loop : M unit :=
  hasStateUpdate ← updateState;
  (if hasStateUpdate : bool then updateDisplay;; runPumps else mret tt);;
  for_loop (seq 0 (10 * 60 / 8)%nat) tt (λ _ _, emit (WatchdogSleep 8000)).

(** The state in which [loop] is first entered, for a given behaviour of the
    ADC: [channel_state] holds its initialiser ([setup] only configures the
    display, the clock prescaler and the pin modes). *)
Definition boot (adc : nat → Pin → Z) : World :=
  {| channel_state := channel_state_init; adc_input := adc;
     adc_reads := 0; trace := [] |}.


(** ** Runs, observers and summaries *)

(** The state after the sampling pass of a cycle, its verdict, and the
    state after the whole cycle. *)
Definition sampled (w : World) : World := (updateState w).2.
Definition hasStateUpdate (w : World) : bool := (updateState w).1.
Definition cycle (w : World) : World := (loop w).2.

(** The states at the start of some cycle: the device boots, with any
    behaviour of the ADC, and runs [loop] over and over. *)
Inductive reachable : World → Prop :=
  | reachable_boot adc : reachable (boot adc)
  | reachable_loop w : reachable w → reachable (cycle w).

(** What has been appended to the trace between [w] and a later [w']. *)
Definition events_since (w w' : World) : list Event :=
  drop (length (trace w)) (trace w').

(** The display refreshes in a piece of trace. *)
Definition renders (tr : list Event) : list (list Row) :=
  omap (λ ev, match ev with DisplayRefresh rows => Some rows | _ => None end) tr.

(** The 74HC237 behind the pins ("HC237 wiring: A0 - d2, A1 - d3, A2 - d4"):
    replaying the pin writes gives the outputs that get enabled, in order.
    By the table [channel_state_init] outputs 0..3 switch the pumps and
    outputs 4..7 power the sensors. *)
Fixpoint decoder_outputs (d4 d3 d2 : Z) (tr : list Event) : list Z :=
  match tr with
  | [] => []
  | DigitalWrite D2 v :: tr' => decoder_outputs d4 d3 v tr'
  | DigitalWrite D3 v :: tr' => decoder_outputs d4 v d2 tr'
  | DigitalWrite D4 v :: tr' => decoder_outputs v d3 d2 tr'
  | DigitalWrite A5 v :: tr' =>   (* DEC_EN *)
      if v =? LOW then decoder_outputs d4 d3 d2 tr'
      else (4 * d4 + 2 * d3 + d2) :: decoder_outputs d4 d3 d2 tr'
  | _ :: tr' => decoder_outputs d4 d3 d2 tr'
  end.

Definition pump_runs (tr : list Event) : list Z :=
  filter (λ y, y < 4) (decoder_outputs 0 0 0 tr).

(** The retry state of a channel (OK, DRY, EXHAUSTED). *)
Inductive RetryState := OK | DRY | EXHAUSTED.

Definition retry_state (c : ChannelState_T) : RetryState :=
  if moisture_reference_level c <=? moisture_level c then OK
  else if pump_attempts c <? max_pump_attempts c then DRY
  else EXHAUSTED.

(** The accumulators of the sampling loop after [k] rounds that start with
    conversion number [n], and the same sums without the 16-bit wrap. *)
Fixpoint accumulate (adc : nat → Pin → Z) (pin : Pin) (n k : nat) (acc : Z * Z) : Z * Z :=
  match k with
  | O => acc
  | S k' =>
      accumulate adc pin (S (S n)) k'
        (u16 (acc.1 + adc n pin), u16 (acc.2 + adc (S n) MOIST_REF))
  end.

Fixpoint sum_reads (adc : nat → Pin → Z) (pin : Pin) (n k : nat) : Z :=
  match k with
  | O => 0
  | S k' => adc n pin + sum_reads adc pin (S (S n)) k'
  end.

(** The averaged raw samples of channel [i] in the cycle that starts in [w]. *)
Definition first_read (w : World) (i : fin NUMBER_OF_CHANNELS) : nat :=
  (adc_reads w + 2 * NUMBER_OF_MEASUREMENT_SAMPLES * fin_to_nat i)%nat.

Definition measurement_of (w : World) (i : fin NUMBER_OF_CHANNELS) : Z :=
  (accumulate (adc_input w) (sensor_analog_pin (channel_state w !!! i))
     (first_read w i) NUMBER_OF_MEASUREMENT_SAMPLES (0, 0)).1
  / Z.of_nat NUMBER_OF_MEASUREMENT_SAMPLES.

Definition measurement_ref_of (w : World) (i : fin NUMBER_OF_CHANNELS) : Z :=
  (accumulate (adc_input w) (sensor_analog_pin (channel_state w !!! i))
     (first_read w i) NUMBER_OF_MEASUREMENT_SAMPLES (0, 0)).2
  / Z.of_nat NUMBER_OF_MEASUREMENT_SAMPLES.

(** The hysteresis verdicts of [updateState] for a channel record and the
    fresh percentages. *)
Definition moisture_changed (c : ChannelState_T) (measurement : Z) : bool :=
  negb (almostEqual (u8 (moisture_level c)) (convertMeasurementToPercent measurement) 2).

Definition reference_changed (c : ChannelState_T) (measurement_ref : Z) : bool :=
  negb (almostEqual (u8 (moisture_reference_level c)) (u8 (measurement_ref / 10)) 2).

(** The net effect of one round of the loop in [updateState] on the
    channel's record, and its contribution to [update]
    (lemma [updateState_channel_eq]). *)
Definition sense (measurement measurement_ref : Z) (c : ChannelState_T) : ChannelState_T :=
  let c1 :=
    if moisture_changed c measurement then
      set_moisture_level_raw measurement
        (set_moisture_level (convertMeasurementToPercent measurement) c)
    else c in
  let c2 :=
    if reference_changed c1 measurement_ref then
      set_moisture_reference_level (u8 (measurement_ref / 10)) c1
    else c1 in
  if moisture_reference_level c2 <=? moisture_level c2 then set_pump_attempts 0 c2
  else c2.

Definition sense_update (measurement measurement_ref : Z) (c : ChannelState_T) : bool :=
  moisture_changed c measurement
  || reference_changed c measurement_ref
  || (moisture_level (sense measurement measurement_ref c)
      <? moisture_reference_level (sense measurement measurement_ref c)).

(** The net effect of one round of the loop in [runPumps]
    (lemma [runPumps_channel_eq]). *)
Definition pump_on (c : ChannelState_T) : bool :=
  (moisture_level c <? moisture_reference_level c)
  && (pump_attempts c <? max_pump_attempts c).

Definition pump (c : ChannelState_T) : ChannelState_T :=
  if pump_on c then set_pump_attempts (u8 (pump_attempts c + 1)) c else c.

Definition setDecoder_events (val : Z) : list Event :=
  [DigitalWrite DEC_EN LOW;
   DigitalWrite D2 (Z.land val 1);
   DigitalWrite D3 (Z.land (Z.shiftr val 1) 1);
   DigitalWrite D4 (Z.land (Z.shiftr val 2) 1);
   DigitalWrite DEC_EN HIGH].

Definition sense_events (c : ChannelState_T) : list Event :=
  setDecoder_events (sensor_dec c) ++ [Delay (2000 / clk_scaler); DigitalWrite DEC_EN LOW].

Definition pump_events (c : ChannelState_T) : list Event :=
  if pump_on c then
    setDecoder_events (pump_dec c)
    ++ [Delay (pump_duration c * 1000 / clk_scaler); DigitalWrite DEC_EN LOW]
  else [].

Definition display_rows (v : vec ChannelState_T NUMBER_OF_CHANNELS) : list Row :=
  (λ i, display_row i (v !!! i)) <$> all_channels.

Definition display_events (v : vec ChannelState_T NUMBER_OF_CHANNELS) : list Event :=
  [DigitalWrite DISP_ENA HIGH; DisplayRefresh (display_rows v); DigitalWrite DISP_ENA LOW].

Definition sleep_events : list Event := replicate (10 * 60 / 8) (WatchdogSleep 8000).

(** The percentage in exact arithmetic: [(raw - DRY) * 100 / (WET - DRY)],
    cut to 0..99 and truncated. *)
Definition percent_exact (measurement : Z) : Z :=
  Z.min 99 (Z.max 0
    ((DRY_MEASUREMENT - measurement) * 100 / (DRY_MEASUREMENT - WET_MEASUREMENT))).

(** [forall_range bits base P]: [P] on all of [base .. base + 2^bits - 1]. *)
Fixpoint forall_range (bits : nat) (base : Z) (P : Z → bool) : bool :=
  match bits with
  | O => P base
  | S k => forall_range k base P && forall_range k (base + 2 ^ Z.of_nat k) P
  end.

(** The [const] members of a channel's record. *)
Definition wiring (c : ChannelState_T) : Z * Z * Pin * Z * Z :=
  (pump_duration c, max_pump_attempts c, sensor_analog_pin c, sensor_dec c, pump_dec c).

(** What holds of channel [i]'s record at the start of every cycle. *)
Record channel_ok (i : fin NUMBER_OF_CHANNELS) (c : ChannelState_T) : Prop := {
  ok_wiring : wiring c = wiring (channel_state_init !!! i);
  ok_attempts : 0 ≤ pump_attempts c ≤ max_pump_attempts c;
  ok_level : 0 ≤ moisture_level c ≤ 99;
  ok_reference : is_u8 (moisture_reference_level c);
  ok_reset : moisture_reference_level c ≤ moisture_level c → pump_attempts c = 0
}.

(** The ADC of the ATmega328P has 10 bits. *)
Definition adc_10bit (w : World) : Prop :=
  ∀ n pin, 0 ≤ adc_input w n pin ≤ 1023.

(** [n] cycles in a row. *)
Definition cycles (n : nat) (w : World) : World := Nat.iter n cycle w.

(** The pump outputs of the channels that [runPumps] actuates in state [v]. *)
Definition pumped (v : vec ChannelState_T NUMBER_OF_CHANNELS) : list Z :=
  concat ((λ i, if pump_on (v !!! i) then [Z.of_nat (fin_to_nat i)] else [])
            <$> all_channels).

(** An ADC that always converts the sensors to [sensor] and the
    potentiometer to [reference], for the examples. *)
Definition steady_adc (sensor reference : Z) : nat → Pin → Z :=
  λ _ pin, match pin with A4 => reference | _ => sensor end.

(** ** More observers *)

Definition Pin_eqb (p q : Pin) : bool :=
  match p, q with
  | D2, D2 | D3, D3 | D4, D4 | A0, A0 | A1, A1 | A2, A2 | A3, A3
  | A4, A4 | A5, A5 | A6, A6 => true
  | _, _ => false
  end.

(** The level a pin was last driven to in a piece of trace, if it was
    written there at all. *)
Definition last_write (pin : Pin) (tr : list Event) : option Z :=
  last (omap (λ ev, match ev with
                    | DigitalWrite p v => if Pin_eqb p pin then Some v else None
                    | _ => None
                    end) tr).

(** The time spent in [Watchdog.sleep] in a piece of trace. *)
Definition sleep_total (tr : list Event) : Z :=
  foldr (λ ev t, match ev with WatchdogSleep ms => ms + t | _ => t end) 0 tr.

(** The address lines of the decoder after a piece of trace. *)
Fixpoint decoder_lines (d4 d3 d2 : Z) (tr : list Event) : Z * Z * Z :=
  match tr with
  | [] => (d4, d3, d2)
  | DigitalWrite D2 v :: tr' => decoder_lines d4 d3 v tr'
  | DigitalWrite D3 v :: tr' => decoder_lines d4 v d2 tr'
  | DigitalWrite D4 v :: tr' => decoder_lines v d3 d2 tr'
  | _ :: tr' => decoder_lines d4 d3 d2 tr'
  end.

(** Replaying the pin writes and the delays: every stretch during which the
    decoder drives one output, as the output and the sum of the arguments of
    [delay] that pass meanwhile.  A stretch ends when [DEC_EN] goes low or
    when the address changes under an enabled decoder; [en] and [t] are the
    enable level and the delay gathered so far. *)
Fixpoint decoder_holds (d4 d3 d2 : Z) (en : bool) (t : Z) (tr : list Event)
    : list (Z * Z) :=
  let y := 4 * d4 + 2 * d3 + d2 in
  match tr with
  | [] => if en then [(y, t)] else []
  | DigitalWrite D2 v :: tr' =>
      if en && negb (v =? d2) then (y, t) :: decoder_holds d4 d3 v en 0 tr'
      else decoder_holds d4 d3 v en t tr'
  | DigitalWrite D3 v :: tr' =>
      if en && negb (v =? d3) then (y, t) :: decoder_holds d4 v d2 en 0 tr'
      else decoder_holds d4 v d2 en t tr'
  | DigitalWrite D4 v :: tr' =>
      if en && negb (v =? d4) then (y, t) :: decoder_holds v d3 d2 en 0 tr'
      else decoder_holds v d3 d2 en t tr'
  | DigitalWrite A5 v :: tr' =>   (* DEC_EN *)
      if v =? LOW then
        if en then (y, t) :: decoder_holds d4 d3 d2 false 0 tr'
        else decoder_holds d4 d3 d2 false 0 tr'
      else decoder_holds d4 d3 d2 true (if en then t else 0) tr'
  | Delay ms :: tr' => decoder_holds d4 d3 d2 en (if en then t + ms else t) tr'
  | _ :: tr' => decoder_holds d4 d3 d2 en t tr'
  end.

(** How often output [y] is among the pump outputs enabled in a trace. *)
Definition pump_run_count (y : Z) (tr : list Event) : nat :=
  length (filter (λ x, x = y) (pump_runs tr)).

(** Two columns of [updateDisplay]. *)
Definition moist_lvl_bar_x_offset : Z := 12.
Definition moist_lvl_txt_x_offset : Z := 150.

(** * Properties *)

(** ** The state monad *)

Lemma vinsert_vinsert {A n} (i : fin n) (x y : A) (v : vec A n) :
  vinsert i x (vinsert i y v) = vinsert i x v.
Proof.
  apply vec_eq; intros j. destruct (decide (i = j)) as [->|Hne].
  - by rewrite !vlookup_insert.
  - by rewrite !vlookup_insert_ne.
Qed.

Ltac unfold_M := unfold mbind, M_bind, mret, M_ret.

Lemma setDecoder_eq val w :
  setDecoder val w =
  (tt, {| channel_state := channel_state w; adc_input := adc_input w;
          adc_reads := adc_reads w; trace := trace w ++ setDecoder_events val |}).
Proof.
  unfold setDecoder, setDecoder_events, digitalWrite, emit. unfold_M. cbn.
  by rewrite <- !app_assoc.
Qed.

Lemma sampleLoop_eq pin k w :
  sampleLoop pin k w =
  (accumulate (adc_input w) pin (adc_reads w) k (0, 0),
   {| channel_state := channel_state w; adc_input := adc_input w;
      adc_reads := adc_reads w + 2 * k; trace := trace w |}).
Proof.
  unfold sampleLoop. generalize 0%nat at 1. generalize (0, 0).
  revert w. induction k as [|k IH]; intros w acc j.
  - cbn. destruct w; cbn. do 2 f_equal. lia.
  - cbn [seq for_loop]. destruct acc as [m mr].
    unfold_M. cbn -[for_loop accumulate u16]. fold (@mret M _).
    rewrite IH. cbn [accumulate adc_input adc_reads channel_state trace fst snd].
    do 2 f_equal. lia.
Qed.

Lemma updateState_channel_eq i update w :
  updateState_channel i update w =
  let c := channel_state w !!! i in
  let acc := accumulate (adc_input w) (sensor_analog_pin c) (adc_reads w)
               NUMBER_OF_MEASUREMENT_SAMPLES (0, 0) in
  let measurement := acc.1 / Z.of_nat NUMBER_OF_MEASUREMENT_SAMPLES in
  let measurement_ref := acc.2 / Z.of_nat NUMBER_OF_MEASUREMENT_SAMPLES in
  (update || sense_update measurement measurement_ref c,
   {| channel_state := vinsert i (sense measurement measurement_ref c) (channel_state w);
      adc_input := adc_input w;
      adc_reads := adc_reads w + 2 * NUMBER_OF_MEASUREMENT_SAMPLES;
      trace := trace w ++ sense_events c |}).
Proof.
  unfold updateState_channel. unfold_M.
  unfold getChannel at 1. rewrite setDecoder_eq.
  unfold delay, digitalWrite, emit.
  rewrite sampleLoop_eq.
  cbn [channel_state adc_input adc_reads trace fst snd].
  set (c := channel_state w !!! i).
  destruct (accumulate _ _ _ _ _) as [m mr]. cbn [fst snd].
  generalize (m / Z.of_nat NUMBER_OF_MEASUREMENT_SAMPLES)
             (mr / Z.of_nat NUMBER_OF_MEASUREMENT_SAMPLES).
  intros measurement measurement_ref.
  unfold getChannel, modifyChannel, sense_update, sense, sense_events,
    moisture_changed, reference_changed.
  cbn [channel_state adc_input adc_reads trace fst snd]. fold c.
  destruct (negb (almostEqual (u8 (moisture_level c)) _ 2)) eqn:E1;
    cbn [channel_state adc_input adc_reads trace fst snd];
    rewrite ?vlookup_insert, ?vinsert_vinsert;
    cbn [set_moisture_level set_moisture_level_raw moisture_reference_level];
    fold c;
    destruct (negb (almostEqual (u8 (moisture_reference_level c)) _ 2)) eqn:E2;
    cbn [channel_state adc_input adc_reads trace fst snd];
    rewrite ?vlookup_insert, ?vinsert_vinsert;
    fold c;
    match goal with
    | |- context [?a <=? ?b] => destruct (Z.leb_spec a b) as [Hle|Hlt]
    end;
    cbn [channel_state adc_input adc_reads trace fst snd];
    rewrite ?vlookup_insert, ?vinsert_vinsert, <- ?app_assoc;
    match goal with
    | |- context [?a <? ?b] => destruct (Z.ltb_spec a b) as [Hlt'|Hle']
    end;
    try (exfalso; cbn in *; lia).
  all: rewrite ?orb_true_r, ?orb_false_r; try reflexivity.
  by unfold c; rewrite vlookup_insert_self.
Qed.

Lemma runPumps_channel_eq i u w :
  runPumps_channel i u w =
  let c := channel_state w !!! i in
  (tt, {| channel_state := vinsert i (pump c) (channel_state w);
          adc_input := adc_input w; adc_reads := adc_reads w;
          trace := trace w ++ pump_events c |}).
Proof.
  unfold runPumps_channel, pump, pump_events, pump_on. unfold_M.
  unfold getChannel at 1. cbn zeta. set (c := channel_state w !!! i).
  destruct (moisture_level c <? moisture_reference_level c); cbn [andb].
  - destruct (pump_attempts c <? max_pump_attempts c).
    + unfold getChannel, modifyChannel, delay, digitalWrite, emit.
      cbn [channel_state adc_input adc_reads trace fst snd].
      rewrite setDecoder_eq, vlookup_insert.
      cbn [channel_state adc_input adc_reads trace fst snd set_pump_attempts
           pump_dec pump_duration].
      fold c. by rewrite <- !app_assoc.
    + unfold c. rewrite vlookup_insert_self, app_nil_r. by destruct w.
  - unfold c. rewrite vlookup_insert_self, app_nil_r. by destruct w.
Qed.

Lemma all_channels_eq : all_channels = [0%fin; 1%fin; 2%fin; 3%fin].
Proof. reflexivity. Qed.

Lemma updateState_eq w :
  updateState w =
  (foldl (λ u i, u || sense_update (measurement_of w i) (measurement_ref_of w i)
                      (channel_state w !!! i)) false all_channels,
   {| channel_state :=
        fun_to_vec (λ i, sense (measurement_of w i) (measurement_ref_of w i)
                           (channel_state w !!! i));
      adc_input := adc_input w;
      adc_reads := adc_reads w + 2 * NUMBER_OF_MEASUREMENT_SAMPLES * NUMBER_OF_CHANNELS;
      trace := trace w ++ concat ((λ i, sense_events (channel_state w !!! i)) <$> all_channels) |}).
Proof.
  destruct w as [v adc n tr]. inv_vec v; intros c0 c1 c2 c3.
  unfold updateState, measurement_of, measurement_ref_of, first_read.
  rewrite all_channels_eq. cbn [for_loop foldl fmap list_fmap concat]. unfold_M.
  do 4 (rewrite updateState_channel_eq;
        cbn -[accumulate sense sense_update sense_events Z.div Z.of_nat]).
  rewrite <- !Nat.add_assoc, !Nat.add_0_r, <- !app_assoc, app_nil_r.
  cbn -[accumulate sense sense_update sense_events Z.div Z.of_nat].
  reflexivity.
Qed.

Lemma runPumps_eq w :
  runPumps w =
  (tt, {| channel_state := vmap pump (channel_state w);
          adc_input := adc_input w; adc_reads := adc_reads w;
          trace := trace w ++ concat ((λ i, pump_events (channel_state w !!! i)) <$> all_channels) |}).
Proof.
  destruct w as [v adc n tr]. inv_vec v; intros c0 c1 c2 c3.
  unfold runPumps. rewrite all_channels_eq.
  cbn [for_loop fmap list_fmap concat]. unfold_M.
  do 4 (rewrite runPumps_channel_eq; cbn -[pump pump_events]).
  by rewrite <- !app_assoc, app_nil_r.
Qed.

Lemma updateDisplay_eq w :
  updateDisplay w =
  (tt, {| channel_state := channel_state w; adc_input := adc_input w;
          adc_reads := adc_reads w;
          trace := trace w ++ display_events (channel_state w) |}).
Proof.
  unfold updateDisplay, display_events, display_rows, digitalWrite, emit, getChannel.
  rewrite all_channels_eq. cbn [for_loop fmap list_fmap]. unfold_M.
  cbn -[display_row]. by rewrite <- !app_assoc.
Qed.

Lemma sleep_eq w :
  for_loop (seq 0 (10 * 60 / 8)%nat) tt (λ _ _, emit (WatchdogSleep 8000)) w =
  (tt, {| channel_state := channel_state w; adc_input := adc_input w;
          adc_reads := adc_reads w; trace := trace w ++ sleep_events |}).
Proof.
  unfold sleep_events. generalize (10 * 60 / 8)%nat. generalize 0%nat.
  intros j k. revert j w. induction k as [|k IH]; intros j w.
  - cbn. rewrite app_nil_r. by destruct w.
  - cbn [seq for_loop replicate]. unfold_M. unfold emit at 1. rewrite IH.
    cbn. by rewrite <- app_assoc.
Qed.

(** One cycle in closed form. *)
Lemma loop_eq w :
  loop w =
  (tt, {| channel_state :=
            if hasStateUpdate w then vmap pump (channel_state (sampled w))
            else channel_state (sampled w);
          adc_input := adc_input w;
          adc_reads := adc_reads (sampled w);
          trace := trace (sampled w)
                   ++ (if hasStateUpdate w then
                         display_events (channel_state (sampled w))
                         ++ concat ((λ i, pump_events (channel_state (sampled w) !!! i))
                                      <$> all_channels)
                       else [])
                   ++ sleep_events |}).
Proof.
  unfold loop, hasStateUpdate, sampled. unfold_M.
  assert (Hadc : adc_input (updateState w).2 = adc_input w)
    by (by rewrite updateState_eq).
  destruct (updateState w) as [[] w1]; cbn [fst snd] in *.
  - rewrite updateDisplay_eq, runPumps_eq, sleep_eq. cbn. rewrite Hadc.
    by rewrite <- !app_assoc.
  - rewrite sleep_eq. by rewrite Hadc.
Qed.

(** ** The converter, against exact arithmetic *)

Lemma forall_range_spec bits base P :
  forall_range bits base P = true →
  ∀ z, base ≤ z < base + 2 ^ Z.of_nat bits → P z = true.
Proof.
  revert base. induction bits as [|k IH]; intros base H z Hz.
  - cbn in H. change (2 ^ Z.of_nat 0) with 1 in Hz.
    by replace z with base by lia.
  - cbn [forall_range] in H. apply andb_prop in H as [Hlo Hhi].
    rewrite Nat2Z.inj_succ, Z.pow_succ_r in Hz by lia.
    destruct (Z.lt_ge_cases z (base + 2 ^ Z.of_nat k)).
    + apply (IH base); [done | lia].
    + apply (IH (base + 2 ^ Z.of_nat k)); [done | lia].
Qed.

Lemma coefficient_a_eq : coefficient_a = S754_finite true 13158601 (-26).
Proof. vm_compute. reflexivity. Qed.

Lemma coefficient_b_eq : coefficient_b = S754_finite false 8481130 (-16).
Proof. vm_compute. reflexivity. Qed.

Lemma percent_of_table :
  forall_range 16 0
    (λ m, percent_of (S754_finite true 13158601 (-26)) (S754_finite false 8481130 (-16))
            (S754_finite false 12976128 (-17)) (S754_zero false) m
          =? percent_exact m) = true.
Proof. vm_compute. reflexivity. Qed.

(** On every [uint16_t] the binary32 computation agrees with exact
    arithmetic. *)
Lemma convert_exact m :
  is_u16 m → convertMeasurementToPercent m = percent_exact m.
Proof.
  intros Hm. unfold convertMeasurementToPercent.
  rewrite coefficient_a_eq, coefficient_b_eq.
  change (F32.of_Z 99) with (S754_finite false 12976128 (-17)).
  change (F32.of_Z 0) with (S754_zero false).
  apply Z.eqb_eq.
  apply (forall_range_spec 16 0 _ percent_of_table). exact Hm.
Qed.

Lemma percent_exact_range m : 0 ≤ percent_exact m ≤ 99.
Proof. unfold percent_exact. lia. Qed.

Lemma percent_exact_mono m1 m2 : m1 ≤ m2 → percent_exact m2 ≤ percent_exact m1.
Proof.
  intros H. unfold percent_exact, DRY_MEASUREMENT, WET_MEASUREMENT.
  assert ((660 - m2) * 100 / (660 - 150) ≤ (660 - m1) * 100 / (660 - 150))
    by (apply Z.div_le_mono; lia).
  lia.
Qed.

(** ** Invariants of the channel records *)

Lemma u8_range z : is_u8 (u8 z).
Proof. unfold is_u8, u8. apply Z.mod_pos_bound. lia. Qed.

Lemma u16_range z : is_u16 (u16 z).
Proof. unfold is_u16, u16. apply Z.mod_pos_bound. lia. Qed.

Lemma u8_id z : is_u8 z → u8 z = z.
Proof. unfold is_u8, u8. intros. by apply Z.mod_small. Qed.

Lemma u16_id z : is_u16 z → u16 z = z.
Proof. unfold is_u16, u16. intros. by apply Z.mod_small. Qed.

Lemma accumulate_u16 adc pin n k acc :
  is_u16 acc.1 → is_u16 acc.2 →
  is_u16 (accumulate adc pin n k acc).1 ∧ is_u16 (accumulate adc pin n k acc).2.
Proof.
  revert n acc. induction k as [|k IH]; intros n acc H1 H2; [done|].
  cbn [accumulate]. apply IH; apply u16_range.
Qed.

Lemma measurement_of_u16 w i : is_u16 (measurement_of w i).
Proof.
  unfold measurement_of.
  destruct (accumulate_u16 (adc_input w) (sensor_analog_pin (channel_state w !!! i))
              (first_read w i) NUMBER_OF_MEASUREMENT_SAMPLES (0, 0)) as [H _];
    [done..|].
  unfold is_u16 in *. change (Z.of_nat NUMBER_OF_MEASUREMENT_SAMPLES) with 4.
  split; [apply Z.div_pos; lia | apply Z.div_lt_upper_bound; lia].
Qed.

Lemma convert_range m : is_u16 m → 0 ≤ convertMeasurementToPercent m ≤ 99.
Proof. intros H. rewrite convert_exact by done. apply percent_exact_range. Qed.

Lemma sense_ok i c m mr :
  is_u16 m → channel_ok i c → channel_ok i (sense m mr c).
Proof.
  intros Hm [Hw Ha Hl Hr Hz]. pose proof (convert_range m Hm) as Hc.
  pose proof (u8_range (mr / 10)) as Hu.
  unfold sense.
  destruct (moisture_changed c m); destruct (reference_changed _ mr);
    match goal with
    | |- context [?a <=? ?b] => destruct (Z.leb_spec a b) as [Hle|Hlt]
    end;
    constructor; cbn in *; try done; try lia.
Qed.

Lemma pump_ok i c : channel_ok i c → channel_ok i (pump c).
Proof.
  intros [Hw Ha Hl Hr Hz]. unfold pump, pump_on.
  destruct (Z.ltb_spec (moisture_level c) (moisture_reference_level c));
    destruct (Z.ltb_spec (pump_attempts c) (max_pump_attempts c));
    cbn [andb]; try by constructor.
  assert (Hmax : max_pump_attempts c = 3).
  { assert (H3 : (wiring c).1.1.1.2 = (wiring (channel_state_init !!! i)).1.1.1.2)
      by (by rewrite Hw).
    cbn [wiring fst snd] in H3. rewrite H3. by inv_fin i; repeat (intros i; inv_fin i). }
  rewrite u8_id by (unfold is_u8; lia).
  constructor; cbn; try done; lia.
Qed.

(** ** One cycle, channel by channel *)

Lemma sampled_channel w i :
  channel_state (sampled w) !!! i =
  sense (measurement_of w i) (measurement_ref_of w i) (channel_state w !!! i).
Proof. unfold sampled. rewrite updateState_eq. cbn [snd channel_state]. by rewrite lookup_fun_to_vec. Qed.

Lemma sampled_adc_input w : adc_input (sampled w) = adc_input w.
Proof. unfold sampled. by rewrite updateState_eq. Qed.

Lemma sampled_trace w :
  trace (sampled w) =
  trace w ++ concat ((λ i, sense_events (channel_state w !!! i)) <$> all_channels).
Proof. unfold sampled. by rewrite updateState_eq. Qed.

Lemma sampled_adc_reads w :
  adc_reads (sampled w) =
  (adc_reads w + 2 * NUMBER_OF_MEASUREMENT_SAMPLES * NUMBER_OF_CHANNELS)%nat.
Proof. unfold sampled. by rewrite updateState_eq. Qed.

Lemma fin4_cases (P : fin NUMBER_OF_CHANNELS → Prop) :
  P 0%fin → P 1%fin → P 2%fin → P 3%fin → ∀ i, P i.
Proof.
  intros H0 H1 H2 H3 i. unfold NUMBER_OF_CHANNELS in *.
  inv_fin i; [done|]. intros i. inv_fin i; [done|]. intros i.
  inv_fin i; [done|]. intros i. inv_fin i; [done|]. intros i. inv_fin i.
Qed.

Ltac fin4 i := pattern i; revert i; apply fin4_cases; cbv beta.

Lemma hasStateUpdate_true w :
  hasStateUpdate w = true ↔
  ∃ i, sense_update (measurement_of w i) (measurement_ref_of w i)
         (channel_state w !!! i) = true.
Proof.
  unfold hasStateUpdate. rewrite updateState_eq, all_channels_eq.
  cbn [fst foldl orb]. split.
  - rewrite !orb_true_iff. intros [[[H|H]|H]|H]; eauto.
  - intros [i H]. revert H. fin4 i; intros H; rewrite H; by rewrite ?orb_true_r.
Qed.

Lemma sense_update_true m mr c :
  sense_update m mr c = true ↔
  moisture_changed c m = true ∨ reference_changed c mr = true
  ∨ moisture_level (sense m mr c) < moisture_reference_level (sense m mr c).
Proof.
  unfold sense_update. rewrite !orb_true_iff, Z.ltb_lt. tauto.
Qed.

Lemma pump_on_false c :
  moisture_reference_level c ≤ moisture_level c → pump_on c = false.
Proof. intros H. unfold pump_on. by destruct (Z.ltb_spec (moisture_level c) (moisture_reference_level c)); [lia|]. Qed.

Lemma hasStateUpdate_false w i :
  hasStateUpdate w = false →
  moisture_reference_level (channel_state (sampled w) !!! i)
  ≤ moisture_level (channel_state (sampled w) !!! i).
Proof.
  intros H. rewrite sampled_channel.
  destruct (Z.le_gt_cases
              (moisture_reference_level (sense (measurement_of w i) (measurement_ref_of w i) (channel_state w !!! i)))
              (moisture_level (sense (measurement_of w i) (measurement_ref_of w i) (channel_state w !!! i))))
    as [|Hlt]; [done|].
  assert (hasStateUpdate w = true); [|congruence].
  apply hasStateUpdate_true. exists i. apply sense_update_true. right; right. lia.
Qed.

Lemma cycle_channel w i :
  channel_state (cycle w) !!! i = pump (channel_state (sampled w) !!! i).
Proof.
  unfold cycle. rewrite loop_eq. cbn [snd channel_state].
  destruct (hasStateUpdate w) eqn:E; [by rewrite vlookup_map|].
  unfold pump. by rewrite pump_on_false by by apply hasStateUpdate_false.
Qed.

Lemma cycle_adc_input w : adc_input (cycle w) = adc_input w.
Proof. unfold cycle. by rewrite loop_eq. Qed.

Lemma events_since_app w w' tr :
  trace w' = trace w ++ tr → events_since w w' = tr.
Proof. intros H. unfold events_since. by rewrite H, drop_app_length. Qed.

Lemma sampled_events w :
  events_since w (sampled w) =
  concat ((λ i, sense_events (channel_state w !!! i)) <$> all_channels).
Proof. apply events_since_app, sampled_trace. Qed.

Lemma cycle_events w :
  events_since w (cycle w) =
  events_since w (sampled w)
  ++ (if hasStateUpdate w then
        display_events (channel_state (sampled w))
        ++ concat ((λ i, pump_events (channel_state (sampled w) !!! i)) <$> all_channels)
      else [])
  ++ sleep_events.
Proof.
  apply events_since_app. unfold cycle. rewrite loop_eq. cbn [snd trace].
  by rewrite sampled_trace, sampled_events, <- app_assoc.
Qed.

(** ** Reachable states *)

Lemma boot_ok adc i : channel_ok i (channel_state (boot adc) !!! i).
Proof.
  fin4 i; constructor; cbn; unfold is_u8; try done; lia.
Qed.

Lemma sampled_ok w :
  (∀ i, channel_ok i (channel_state w !!! i)) →
  ∀ i, channel_ok i (channel_state (sampled w) !!! i).
Proof.
  intros H i. rewrite sampled_channel. apply sense_ok; [apply measurement_of_u16 | done].
Qed.

Lemma cycle_ok w :
  (∀ i, channel_ok i (channel_state w !!! i)) →
  ∀ i, channel_ok i (channel_state (cycle w) !!! i).
Proof. intros H i. rewrite cycle_channel. by apply pump_ok, sampled_ok. Qed.

Lemma reachable_ok w : reachable w → ∀ i, channel_ok i (channel_state w !!! i).
Proof. induction 1; [apply boot_ok | by apply cycle_ok]. Qed.

Lemma ok_max_attempts i c : channel_ok i c → max_pump_attempts c = 3.
Proof.
  intros [Hw _ _ _ _].
  assert (H3 : (wiring c).1.1.1.2 = (wiring (channel_state_init !!! i)).1.1.1.2)
    by (by rewrite Hw).
  cbn [wiring fst snd] in H3. rewrite H3. clear. by fin4 i.
Qed.

Lemma ok_decoders i c :
  channel_ok i c →
  sensor_dec c = 4 + Z.of_nat (fin_to_nat i) ∧ pump_dec c = Z.of_nat (fin_to_nat i).
Proof.
  intros [Hw _ _ _ _]. unfold wiring in Hw.
  injection Hw as _ _ _ -> ->. clear. by fin4 i.
Qed.

(** ** Observing the trace of a cycle *)

Lemma observe_cycle (b0 b1 b2 b3 : bool) (rows : list Row) (t0 t1 t2 t3 : Z) :
  let sensing :=
    (setDecoder_events 4 ++ [Delay 250; DigitalWrite DEC_EN LOW])
    ++ (setDecoder_events 5 ++ [Delay 250; DigitalWrite DEC_EN LOW])
    ++ (setDecoder_events 6 ++ [Delay 250; DigitalWrite DEC_EN LOW])
    ++ (setDecoder_events 7 ++ [Delay 250; DigitalWrite DEC_EN LOW]) ++ [] in
  let display :=
    [DigitalWrite DISP_ENA HIGH; DisplayRefresh rows; DigitalWrite DISP_ENA LOW] in
  let pumps :=
    (if b0 then setDecoder_events 0 ++ [Delay t0; DigitalWrite DEC_EN LOW] else [])
    ++ (if b1 then setDecoder_events 1 ++ [Delay t1; DigitalWrite DEC_EN LOW] else [])
    ++ (if b2 then setDecoder_events 2 ++ [Delay t2; DigitalWrite DEC_EN LOW] else [])
    ++ (if b3 then setDecoder_events 3 ++ [Delay t3; DigitalWrite DEC_EN LOW] else [])
    ++ [] in
  let ran :=
    (if b0 then [0] else []) ++ (if b1 then [1] else [])
    ++ (if b2 then [2] else []) ++ (if b3 then [3] else []) ++ [] in
  (pump_runs sensing = [] ∧ renders sensing = [])
  ∧ (pump_runs (pumps ++ sleep_events) = ran ∧ renders (pumps ++ sleep_events) = [])
  ∧ (pump_runs (sensing ++ (display ++ pumps) ++ sleep_events) = ran
     ∧ renders (sensing ++ (display ++ pumps) ++ sleep_events) = [rows])
  ∧ (pump_runs (sensing ++ [] ++ sleep_events) = []
     ∧ renders (sensing ++ [] ++ sleep_events) = []).
Proof. by destruct b0, b1, b2, b3. Qed.

Lemma cycle_observed w :
  (∀ i, channel_ok i (channel_state w !!! i)) →
  let s := channel_state (sampled w) in
  let pre := events_since w (sampled w) in
  let post := concat ((λ i, pump_events (s !!! i)) <$> all_channels) ++ sleep_events in
  (pump_runs pre = [] ∧ renders pre = [])
  ∧ (pump_runs post = pumped s ∧ renders post = [])
  ∧ pump_runs (events_since w (cycle w)) = (if hasStateUpdate w then pumped s else [])
  ∧ renders (events_since w (cycle w)) = (if hasStateUpdate w then [display_rows s] else []).
Proof.
  intros Hok. pose proof (sampled_ok w Hok) as Hs. cbv zeta.
  rewrite cycle_events, sampled_events. unfold pumped, display_events.
  rewrite all_channels_eq. cbn [fmap list_fmap concat]. unfold sense_events, pump_events.
  destruct (ok_decoders _ _ (Hok 0%fin)) as [-> _].
  destruct (ok_decoders _ _ (Hok 1%fin)) as [-> _].
  destruct (ok_decoders _ _ (Hok 2%fin)) as [-> _].
  destruct (ok_decoders _ _ (Hok 3%fin)) as [-> _].
  destruct (ok_decoders _ _ (Hs 0%fin)) as [_ ->].
  destruct (ok_decoders _ _ (Hs 1%fin)) as [_ ->].
  destruct (ok_decoders _ _ (Hs 2%fin)) as [_ ->].
  destruct (ok_decoders _ _ (Hs 3%fin)) as [_ ->].
  destruct (observe_cycle
              (pump_on (channel_state (sampled w) !!! 0%fin))
              (pump_on (channel_state (sampled w) !!! 1%fin))
              (pump_on (channel_state (sampled w) !!! 2%fin))
              (pump_on (channel_state (sampled w) !!! 3%fin))
              (display_rows (channel_state (sampled w)))
              (pump_duration (channel_state (sampled w) !!! 0%fin) * 1000 / clk_scaler)
              (pump_duration (channel_state (sampled w) !!! 1%fin) * 1000 / clk_scaler)
              (pump_duration (channel_state (sampled w) !!! 2%fin) * 1000 / clk_scaler)
              (pump_duration (channel_state (sampled w) !!! 3%fin) * 1000 / clk_scaler))
    as (Hpre & Hpost & Hon & Hoff).
  split; [exact Hpre|]. split; [exact Hpost|].
  destruct (hasStateUpdate w); [exact Hon | exact Hoff].
Qed.

(** ** The sampling loop without overflow *)

Lemma sum_reads_bounds adc pin n k :
  (∀ j p, 0 ≤ adc j p ≤ 1023) →
  0 ≤ sum_reads adc pin n k ≤ 1023 * Z.of_nat k.
Proof.
  intros Hadc. revert n. induction k as [|k IH]; intros n; cbn [sum_reads]; [lia|].
  specialize (IH (S (S n))). specialize (Hadc n pin). lia.
Qed.

Lemma accumulate_exact adc pin n k a b :
  (∀ j p, 0 ≤ adc j p ≤ 1023) →
  0 ≤ a → 0 ≤ b →
  a + 1023 * Z.of_nat k < 2 ^ 16 → b + 1023 * Z.of_nat k < 2 ^ 16 →
  accumulate adc pin n k (a, b) =
  (a + sum_reads adc pin n k, b + sum_reads adc MOIST_REF (S n) k).
Proof.
  intros Hadc. revert n a b.
  induction k as [|k IH]; intros n a b Ha Hb Ha' Hb'; cbn [accumulate sum_reads fst snd].
  - f_equal; lia.
  - pose proof (Hadc n pin). pose proof (Hadc (S n) MOIST_REF).
    rewrite !u16_id by (unfold is_u16; lia).
    rewrite IH by lia. f_equal; lia.
Qed.

Lemma sampleLoop_exact w pin k :
  adc_10bit w → (k < 64)%nat →
  (sampleLoop pin k w).1 =
  (sum_reads (adc_input w) pin (adc_reads w) k,
   sum_reads (adc_input w) MOIST_REF (S (adc_reads w)) k).
Proof.
  intros Hadc Hk. rewrite sampleLoop_eq. cbn [fst].
  rewrite accumulate_exact by (done || lia). f_equal; lia.
Qed.

Lemma measurement_exact w i :
  adc_10bit w →
  measurement_of w i =
    sum_reads (adc_input w) (sensor_analog_pin (channel_state w !!! i))
      (first_read w i) NUMBER_OF_MEASUREMENT_SAMPLES
    / Z.of_nat NUMBER_OF_MEASUREMENT_SAMPLES
  ∧ measurement_ref_of w i =
    sum_reads (adc_input w) MOIST_REF (S (first_read w i)) NUMBER_OF_MEASUREMENT_SAMPLES
    / Z.of_nat NUMBER_OF_MEASUREMENT_SAMPLES.
Proof.
  intros Hadc. unfold measurement_of, measurement_ref_of.
  rewrite accumulate_exact by (done || (cbn; lia)). cbn [fst snd].
  by rewrite !Z.add_0_l.
Qed.

Lemma measurement_ref_10bit w i :
  adc_10bit w → 0 ≤ measurement_ref_of w i ≤ 1023.
Proof.
  intros Hadc. destruct (measurement_exact w i Hadc) as [_ ->].
  pose proof (sum_reads_bounds (adc_input w) MOIST_REF (S (first_read w i))
                NUMBER_OF_MEASUREMENT_SAMPLES Hadc) as H.
  change (Z.of_nat NUMBER_OF_MEASUREMENT_SAMPLES) with 4 in *.
  split; [apply Z.div_pos; lia | apply Z.div_le_upper_bound; lia].
Qed.

(** * The claims *)

(** ** MoistureConverter *)

Example convert_midpoint : convertMeasurementToPercent 405 = 50.
Proof. vm_compute. reflexivity. Qed.

(** C3: [convertMeasurementToPercent] returns 99 for every raw input up to
    the WET calibration and 0 for every raw input from the DRY calibration
    on, and it never increases when the raw input increases; with WET = 150
    and DRY = 660 it maps 150 to 99, 660 to 0 and the midpoint 405 to within
    one point of 49. *)
Theorem convertMeasurementToPercent_saturates_and_decreases :
  ∀ raw raw' : Z, is_u16 raw → is_u16 raw' →
    (raw ≤ WET_MEASUREMENT → convertMeasurementToPercent raw = 99)
    ∧ (DRY_MEASUREMENT ≤ raw → convertMeasurementToPercent raw = 0)
    ∧ (raw ≤ raw' → convertMeasurementToPercent raw' ≤ convertMeasurementToPercent raw)
    ∧ WET_MEASUREMENT = 150 ∧ DRY_MEASUREMENT = 660
    ∧ convertMeasurementToPercent 150 = 99
    ∧ convertMeasurementToPercent 660 = 0
    ∧ Z.abs (convertMeasurementToPercent 405 - 49) ≤ 1.
Proof.
  intros raw raw' Hraw Hraw'. rewrite !convert_exact by (done || (unfold is_u16; lia)).
  repeat split.
  - intros Hwet. unfold percent_exact, WET_MEASUREMENT, DRY_MEASUREMENT in *.
    assert (100 ≤ (660 - raw) * 100 / (660 - 150))
      by (apply Z.div_le_lower_bound; lia).
    lia.
  - intros Hdry. unfold percent_exact, WET_MEASUREMENT, DRY_MEASUREMENT in *.
    assert ((660 - raw) * 100 / (660 - 150) ≤ 0)
      by (apply Z.div_le_upper_bound; lia).
    lia.
  - apply percent_exact_mono.
  - by vm_compute.
Qed.

Lemma convertMeasurementToPercent_saturates_and_decreases_witness :
  convertMeasurementToPercent 100 = 99
  ∧ convertMeasurementToPercent 700 = 0
  ∧ convertMeasurementToPercent 700 ≤ convertMeasurementToPercent 100.
Proof.
  assert (H100 : is_u16 100) by (unfold is_u16; lia).
  assert (H700 : is_u16 700) by (unfold is_u16; lia).
  destruct (convertMeasurementToPercent_saturates_and_decreases 100 700 H100 H700)
    as (Hwet & _ & Hmono & _).
  destruct (convertMeasurementToPercent_saturates_and_decreases 700 700 H700 H700)
    as (_ & Hdry & _).
  split; [apply Hwet; unfold WET_MEASUREMENT; lia|].
  split; [apply Hdry; unfold DRY_MEASUREMENT; lia|].
  apply Hmono. lia.
Defined.

(** ** HysteresisFilter *)

Lemma almostEqual_abs a b t : almostEqual a b t = (Z.abs (a - b) <=? t).
Proof. unfold almostEqual. f_equal. lia. Qed.

Lemma sense_moisture_level m mr c :
  moisture_level (sense m mr c) =
  if moisture_changed c m then convertMeasurementToPercent m else moisture_level c.
Proof.
  unfold sense. destruct (moisture_changed c m); destruct (reference_changed _ mr);
    by match goal with |- context [?a <=? ?b] => destruct (a <=? b) end.
Qed.

Lemma sense_moisture_level_raw m mr c :
  moisture_level_raw (sense m mr c) =
  if moisture_changed c m then m else moisture_level_raw c.
Proof.
  unfold sense. destruct (moisture_changed c m); destruct (reference_changed _ mr);
    by match goal with |- context [?a <=? ?b] => destruct (a <=? b) end.
Qed.

Lemma sense_moisture_reference_level m mr c :
  moisture_reference_level (sense m mr c) =
  if reference_changed c mr then u8 (mr / 10) else moisture_reference_level c.
Proof.
  unfold sense, reference_changed.
  destruct (moisture_changed c m); cbn [moisture_reference_level set_moisture_level_raw
                                         set_moisture_level];
    destruct (negb (almostEqual _ (u8 (mr / 10)) 2));
    by match goal with |- context [?a <=? ?b] => destruct (a <=? b) end.
Qed.

Lemma sense_wiring m mr c : wiring (sense m mr c) = wiring c.
Proof.
  unfold sense. destruct (moisture_changed c m); destruct (reference_changed _ mr);
    by match goal with |- context [?a <=? ?b] => destruct (a <=? b) end.
Qed.

Lemma sense_pump_attempts m mr c :
  pump_attempts (sense m mr c) =
  if moisture_reference_level (sense m mr c) <=? moisture_level (sense m mr c)
  then 0 else pump_attempts c.
Proof.
  unfold sense. destruct (moisture_changed c m); destruct (reference_changed _ mr);
    match goal with |- context [?a <=? ?b] => destruct (Z.leb_spec a b) end;
    cbn in *;
    match goal with |- context [?a <=? ?b] => destruct (Z.leb_spec a b) end;
    (done || lia).
Qed.

(** C4: the change predicate of the filter, [!almostEqual(old, new, t)], is
    false on equal values for every tolerance [t >= 0], is [|x - y| > t], and
    is symmetric; [updateState] applies it with tolerance 2 to the moisture
    percentage and to the reference percentage. *)
Theorem almostEqual_change_predicate :
  (∀ x y t : Z,
     (0 ≤ t → negb (almostEqual x x t) = false)
     ∧ negb (almostEqual x y t) = (t <? Z.abs (x - y))
     ∧ negb (almostEqual x y t) = negb (almostEqual y x t))
  ∧ (∀ w i, reachable w →
       let c := channel_state w !!! i in
       let s := channel_state (sampled w) !!! i in
       let percentage := convertMeasurementToPercent (measurement_of w i) in
       let percentage_ref := u8 (measurement_ref_of w i / 10) in
       moisture_level s =
         (if negb (almostEqual (moisture_level c) percentage 2)
          then percentage else moisture_level c)
       ∧ moisture_reference_level s =
         (if negb (almostEqual (moisture_reference_level c) percentage_ref 2)
          then percentage_ref else moisture_reference_level c)).
Proof.
  split.
  - intros x y t. rewrite !almostEqual_abs. repeat split.
    + intros Ht. rewrite Z.sub_diag. change (Z.abs 0) with 0.
      destruct (Z.leb_spec 0 t); [done|lia].
    + by rewrite Z.ltb_antisym.
    + replace (y - x) with (- (x - y)) by lia. by rewrite Z.abs_opp.
  - intros w i Hw. cbv zeta. destruct (reachable_ok w Hw i) as [_ _ Hl Hr _].
    rewrite sampled_channel, sense_moisture_level, sense_moisture_reference_level.
    unfold moisture_changed, reference_changed.
    rewrite (u8_id (moisture_level _)) by (unfold is_u8; lia).
    by rewrite (u8_id (moisture_reference_level _)) by done.
Qed.

Lemma almostEqual_change_predicate_witness :
  negb (almostEqual 7 7 2) = false
  ∧ moisture_level (channel_state (sampled (boot (steady_adc 660 250))) !!! 0%fin) = 0.
Proof.
  destruct almostEqual_change_predicate as [Hfilter Hstate].
  split.
  - destruct (Hfilter 7 7 2) as [Hrefl _]. apply Hrefl. lia.
  - pose proof (Hstate (boot (steady_adc 660 250)) 0%fin (reachable_boot _)) as H.
    cbv zeta in H. destruct H as [H _].
    etransitivity; [exact H|]. vm_compute. reflexivity.
Defined.

(** ** SamplingAggregator *)

(** C9: with 4 samples per channel and every ADC reading in 0..1023, the two
    16-bit accumulators of the sampling loop hold the exact sums after every
    round (they never wrap modulo 2^16), and the raw values of a channel are
    the exact integer averages of its 4 samples. *)
Theorem sampling_sums_never_wrap :
  ∀ w i, adc_10bit w →
    let adc := adc_input w in
    let pin := sensor_analog_pin (channel_state w !!! i) in
    let n := first_read w i in
    NUMBER_OF_MEASUREMENT_SAMPLES = 4%nat
    ∧ (∀ w' pin' k, adc_10bit w' → (k ≤ NUMBER_OF_MEASUREMENT_SAMPLES)%nat →
         (sampleLoop pin' k w').1 =
           (sum_reads (adc_input w') pin' (adc_reads w') k,
            sum_reads (adc_input w') MOIST_REF (S (adc_reads w')) k)
         ∧ 0 ≤ sum_reads (adc_input w') pin' (adc_reads w') k < 2 ^ 16
         ∧ 0 ≤ sum_reads (adc_input w') MOIST_REF (S (adc_reads w')) k < 2 ^ 16)
    ∧ measurement_of w i =
        (adc n pin + adc (n + 2)%nat pin + adc (n + 4)%nat pin + adc (n + 6)%nat pin) / 4
    ∧ measurement_ref_of w i =
        (adc (n + 1)%nat MOIST_REF + adc (n + 3)%nat MOIST_REF
         + adc (n + 5)%nat MOIST_REF + adc (n + 7)%nat MOIST_REF) / 4
    ∧ (moisture_changed (channel_state w !!! i) (measurement_of w i) = true →
       moisture_level_raw (channel_state (sampled w) !!! i) =
         (adc n pin + adc (n + 2)%nat pin + adc (n + 4)%nat pin + adc (n + 6)%nat pin) / 4).
Proof.
  intros w i Hadc. cbv zeta.
  assert (Hm : measurement_of w i =
    (adc_input w (first_read w i) (sensor_analog_pin (channel_state w !!! i))
     + adc_input w (first_read w i + 2)%nat (sensor_analog_pin (channel_state w !!! i))
     + adc_input w (first_read w i + 4)%nat (sensor_analog_pin (channel_state w !!! i))
     + adc_input w (first_read w i + 6)%nat (sensor_analog_pin (channel_state w !!! i))) / 4).
  { destruct (measurement_exact w i Hadc) as [-> _].
    cbn [NUMBER_OF_MEASUREMENT_SAMPLES sum_reads].
    change (Z.of_nat 4) with 4. f_equal.
    replace (first_read w i + 2)%nat with (S (S (first_read w i))) by lia.
    replace (first_read w i + 4)%nat with (S (S (S (S (first_read w i))))) by lia.
    replace (first_read w i + 6)%nat with (S (S (S (S (S (S (first_read w i))))))) by lia.
    lia. }
  split; [done|]. split; [|split; [exact Hm|split]].
  - intros w' pin' k Hadc' Hk. unfold NUMBER_OF_MEASUREMENT_SAMPLES in Hk.
    split; [apply sampleLoop_exact; [done | lia]|].
    pose proof (sum_reads_bounds (adc_input w') pin' (adc_reads w') k Hadc').
    pose proof (sum_reads_bounds (adc_input w') MOIST_REF (S (adc_reads w')) k Hadc').
    lia.
  - destruct (measurement_exact w i Hadc) as [_ ->].
    cbn [NUMBER_OF_MEASUREMENT_SAMPLES sum_reads].
    change (Z.of_nat 4) with 4. f_equal.
    replace (first_read w i + 1)%nat with (S (first_read w i)) by lia.
    replace (first_read w i + 3)%nat with (S (S (S (first_read w i)))) by lia.
    replace (first_read w i + 5)%nat with (S (S (S (S (S (first_read w i)))))) by lia.
    replace (first_read w i + 7)%nat
      with (S (S (S (S (S (S (S (first_read w i)))))))) by lia.
    lia.
  - intros Hch. by rewrite sampled_channel, sense_moisture_level_raw, Hch.
Qed.

Lemma steady_adc_10bit sensor reference :
  0 ≤ sensor ≤ 1023 → 0 ≤ reference ≤ 1023 →
  adc_10bit (boot (steady_adc sensor reference)).
Proof. intros Hs Hr n pin. cbn. by destruct pin. Qed.

Lemma sampling_sums_never_wrap_witness :
  measurement_of (boot (steady_adc 660 250)) 1%fin = (660 + 660 + 660 + 660) / 4
  ∧ moisture_level_raw (channel_state (sampled (boot (steady_adc 660 250))) !!! 1%fin)
    = 660.
Proof.
  assert (Hadc : adc_10bit (boot (steady_adc 660 250)))
    by (apply steady_adc_10bit; lia).
  pose proof (sampling_sums_never_wrap (boot (steady_adc 660 250)) 1%fin Hadc) as H.
  cbv zeta in H. destruct H as (_ & _ & Hm & _ & Hraw).
  split; [exact Hm|].
  etransitivity; [apply Hraw; vm_compute; reflexivity|].
  vm_compute. reflexivity.
Defined.

(** C8, as stated, fails: on the first cycle after boot with every sensor
    reading 150 (99 percent, as stored) the filter reports no change, and
    [moisture_level_raw] keeps its boot value 0 although the averaged sample
    of the cycle is 150. *)
Lemma moisture_level_raw_not_last_sample :
  ¬ (moisture_level_raw (channel_state (sampled (boot (steady_adc 150 250))) !!! 0%fin)
     = measurement_of (boot (steady_adc 150 250)) 0%fin).
Proof. vm_compute. discriminate. Qed.

(** C8, amended: [moisture_level_raw] is written together with
    [moisture_level], and only when the filter reports a change of the
    moisture percentage: then both take the values of this cycle, otherwise
    both stay as they were; [moisture_reference_level] is written only when
    the filter reports a change of the reference percentage; the constant
    members are never written. *)
Theorem moisture_level_raw_follows_filter :
  ∀ w i,
    let c := channel_state w !!! i in
    let s := channel_state (sampled w) !!! i in
    let measurement := measurement_of w i in
    let measurement_ref := measurement_ref_of w i in
    (if negb (almostEqual (u8 (moisture_level c))
                (convertMeasurementToPercent measurement) 2)
     then moisture_level s = convertMeasurementToPercent measurement
          ∧ moisture_level_raw s = measurement
     else moisture_level s = moisture_level c
          ∧ moisture_level_raw s = moisture_level_raw c)
    ∧ (if negb (almostEqual (u8 (moisture_reference_level c))
                  (u8 (measurement_ref / 10)) 2)
       then moisture_reference_level s = u8 (measurement_ref / 10)
       else moisture_reference_level s = moisture_reference_level c)
    ∧ wiring s = wiring c.
Proof.
  intros w i. cbv zeta.
  rewrite sampled_channel, sense_moisture_level, sense_moisture_level_raw,
    sense_moisture_reference_level, sense_wiring.
  unfold moisture_changed, reference_changed.
  split; [|split; [|done]].
  - by destruct (negb (almostEqual (u8 (moisture_level _)) _ 2)).
  - by destruct (negb (almostEqual (u8 (moisture_reference_level _)) _ 2)).
Qed.

(** ** RetryStateMachine *)

Lemma pump_levels c :
  moisture_level (pump c) = moisture_level c
  ∧ moisture_reference_level (pump c) = moisture_reference_level c
  ∧ max_pump_attempts (pump c) = max_pump_attempts c.
Proof. unfold pump. by destruct (pump_on c). Qed.

Lemma pump_pump_attempts i c :
  channel_ok i c →
  pump_attempts (pump c) = if pump_on c then pump_attempts c + 1 else pump_attempts c.
Proof.
  intros Hok. pose proof (ok_max_attempts i c Hok) as Hmax.
  destruct Hok as [_ Ha _ _ _]. unfold pump.
  destruct (pump_on c) eqn:Hon; [|done]. cbn.
  unfold pump_on in Hon. apply andb_prop in Hon as [_ Hlt%Z.ltb_lt].
  apply u8_id. unfold is_u8. lia.
Qed.

(** What one cycle does to the retry counter of channel [i]. *)
Lemma cycle_pump_attempts w i :
  reachable w →
  let c := channel_state w !!! i in
  let s := channel_state (sampled w) !!! i in
  let c' := channel_state (cycle w) !!! i in
  moisture_level c' = moisture_level s
  ∧ moisture_reference_level c' = moisture_reference_level s
  ∧ max_pump_attempts c' = max_pump_attempts c
  ∧ pump_attempts s =
      (if moisture_reference_level s <=? moisture_level s then 0 else pump_attempts c)
  ∧ pump_attempts c' =
      (if moisture_reference_level s <=? moisture_level s then 0
       else if pump_attempts c <? max_pump_attempts c then pump_attempts c + 1
       else pump_attempts c).
Proof.
  intros Hw. cbv zeta.
  pose proof (reachable_ok w Hw i) as Hc.
  pose proof (sampled_ok w (reachable_ok w Hw) i) as Hs.
  rewrite cycle_channel.
  destruct (pump_levels (channel_state (sampled w) !!! i)) as (-> & -> & ->).
  rewrite (pump_pump_attempts i) by done.
  rewrite (ok_max_attempts i _ Hs), (ok_max_attempts i _ Hc).
  assert (Hsa : pump_attempts (channel_state (sampled w) !!! i) =
    (if moisture_reference_level (channel_state (sampled w) !!! i)
        <=? moisture_level (channel_state (sampled w) !!! i)
     then 0 else pump_attempts (channel_state w !!! i))).
  { rewrite sampled_channel. apply sense_pump_attempts. }
  repeat split; [done|]. unfold pump_on.
  rewrite (ok_max_attempts i _ Hs), Hsa.
  destruct (Z.leb_spec (moisture_reference_level (channel_state (sampled w) !!! i))
              (moisture_level (channel_state (sampled w) !!! i)));
    destruct (Z.ltb_spec (moisture_level (channel_state (sampled w) !!! i))
                (moisture_reference_level (channel_state (sampled w) !!! i)));
    try lia; cbn [andb]; [done|].
  by destruct (pump_attempts (channel_state w !!! i) <? 3).
Qed.

(** C1: in every reachable state, and in the states inside a cycle, a
    channel's [pump_attempts] is at most its [max_pump_attempts]; over a
    cycle it is kept or incremented by one, or else it is reset to 0, which
    happens exactly when the sampling pass finds
    [moisture_level >= moisture_reference_level]. *)
Theorem pump_attempts_bounded_reset_only :
  ∀ w i, reachable w →
    let c := channel_state w !!! i in
    let s := channel_state (sampled w) !!! i in
    let c' := channel_state (cycle w) !!! i in
    0 ≤ pump_attempts c ≤ max_pump_attempts c
    ∧ 0 ≤ pump_attempts s ≤ max_pump_attempts s
    ∧ 0 ≤ pump_attempts c' ≤ max_pump_attempts c'
    ∧ (pump_attempts s = pump_attempts c
       ∨ pump_attempts s = 0 ∧ moisture_reference_level s ≤ moisture_level s)
    ∧ (pump_attempts c' = pump_attempts s ∨ pump_attempts c' = pump_attempts s + 1)
    ∧ (pump_attempts c' < pump_attempts c →
       pump_attempts c' = 0 ∧ moisture_reference_level s ≤ moisture_level s)
    ∧ (moisture_reference_level s ≤ moisture_level s → pump_attempts c' = 0).
Proof.
  intros w i Hw. cbv zeta.
  pose proof (reachable_ok w Hw i) as [_ Hc _ _ _].
  pose proof (sampled_ok w (reachable_ok w Hw) i) as [_ Hs _ _ _].
  pose proof (reachable_ok _ (reachable_loop w Hw) i) as [_ Hc' _ _ _].
  pose proof (cycle_pump_attempts w i Hw) as H. cbv zeta in H.
  destruct H as (_ & _ & _ & Hsa & Hca).
  destruct (Z.leb_spec (moisture_reference_level (channel_state (sampled w) !!! i))
              (moisture_level (channel_state (sampled w) !!! i)));
    destruct (Z.ltb_spec (pump_attempts (channel_state w !!! i))
                (max_pump_attempts (channel_state w !!! i)));
    repeat split; try lia.
Qed.

Lemma pump_attempts_bounded_reset_only_witness :
  0 ≤ pump_attempts (channel_state (cycle (boot (steady_adc 660 250))) !!! 2%fin)
  ≤ max_pump_attempts (channel_state (cycle (boot (steady_adc 660 250))) !!! 2%fin).
Proof.
  pose proof (pump_attempts_bounded_reset_only (boot (steady_adc 660 250)) 2%fin
                (reachable_boot _)) as H.
  cbv zeta in H. destruct H as (_ & _ & H & _). exact H.
Defined.

Lemma elem_of_pumped v i :
  Z.of_nat (fin_to_nat i) ∈ pumped v ↔ pump_on (v !!! i) = true.
Proof.
  unfold pumped. rewrite all_channels_eq. cbn [fmap list_fmap concat].
  rewrite list_elem_of_In. fin4 i;
    repeat match goal with |- context [pump_on ?c] => destruct (pump_on c) end;
    cbn; intuition (discriminate || lia).
Qed.

Lemma cycle_pump_runs w i :
  reachable w →
  Z.of_nat (fin_to_nat i) ∈ pump_runs (events_since w (cycle w)) ↔
  pump_on (channel_state (sampled w) !!! i) = true.
Proof.
  intros Hw. destruct (cycle_observed w (reachable_ok w Hw)) as (_ & _ & -> & _).
  destruct (hasStateUpdate w) eqn:Hupd; [apply elem_of_pumped|].
  rewrite pump_on_false by by apply hasStateUpdate_false.
  split; [|discriminate]. intros H. apply elem_of_nil in H. contradiction.
Qed.

(** C2: from [pump_attempts = 0] with [max_pump_attempts = 3], three cycles
    in a row that find the level below the reference take [pump_attempts]
    to 1, 2 and 3, and after the third the channel is EXHAUSTED; a cycle that
    finds the level below the reference while [pump_attempts] is at the
    maximum does not switch the channel's pump and leaves the count at the
    maximum; a cycle that finds the level at or above the reference leaves
    [pump_attempts] at 0, whatever it was. *)
Theorem retry_counts_then_gives_up :
  ∀ w i, reachable w →
    let below w :=
      moisture_level (channel_state (sampled w) !!! i)
      < moisture_reference_level (channel_state (sampled w) !!! i) in
    let attempts w := pump_attempts (channel_state w !!! i) in
    (attempts w = 0 → max_pump_attempts (channel_state w !!! i) = 3 →
     below w → below (cycle w) → below (cycle (cycle w)) →
     attempts (cycle w) = 1
     ∧ attempts (cycle (cycle w)) = 2
     ∧ attempts (cycle (cycle (cycle w))) = 3
     ∧ retry_state (channel_state (cycle (cycle (cycle w))) !!! i) = EXHAUSTED)
    ∧ (attempts w = max_pump_attempts (channel_state w !!! i) → below w →
       (Z.of_nat (fin_to_nat i) ∉ pump_runs (events_since w (cycle w)))
       ∧ attempts (cycle w) = max_pump_attempts (channel_state (cycle w) !!! i)
       ∧ retry_state (channel_state (cycle w) !!! i) = EXHAUSTED)
    ∧ (¬ below w →
       attempts (cycle w) = 0
       ∧ retry_state (channel_state (cycle w) !!! i) = OK).
Proof.
  intros w i Hw. cbv zeta.
  assert (Hstep : ∀ w, reachable w →
    max_pump_attempts (channel_state (cycle w) !!! i) = 3
    ∧ moisture_level (channel_state (cycle w) !!! i)
      = moisture_level (channel_state (sampled w) !!! i)
    ∧ moisture_reference_level (channel_state (cycle w) !!! i)
      = moisture_reference_level (channel_state (sampled w) !!! i)
    ∧ pump_attempts (channel_state (cycle w) !!! i) =
      (if moisture_reference_level (channel_state (sampled w) !!! i)
          <=? moisture_level (channel_state (sampled w) !!! i) then 0
       else if pump_attempts (channel_state w !!! i) <? 3
            then pump_attempts (channel_state w !!! i) + 1
            else pump_attempts (channel_state w !!! i))).
  { intros w0 Hw0. pose proof (cycle_pump_attempts w0 i Hw0) as H. cbv zeta in H.
    destruct H as (Hl & Hr & Hm & _ & Ha).
    rewrite (ok_max_attempts i _ (reachable_ok w0 Hw0 i)) in Ha, Hm. done. }
  pose proof (reachable_loop w Hw) as Hw1.
  pose proof (reachable_loop _ Hw1) as Hw2.
  destruct (Hstep w Hw) as (Hm1 & Hl1 & Hr1 & Ha1).
  destruct (Hstep _ Hw1) as (Hm2 & Hl2 & Hr2 & Ha2).
  destruct (Hstep _ Hw2) as (Hm3 & Hl3 & Hr3 & Ha3).
  pose proof (ok_max_attempts i _ (reachable_ok w Hw i)) as Hm0.
  split; [|split].
  - intros H0 _ Hb1 Hb2 Hb3. unfold retry_state.
    rewrite Hm3, Hl3, Hr3, Ha3, Ha2, Ha1, H0.
    destruct (Z.leb_spec (moisture_reference_level (channel_state (sampled w) !!! i))
                (moisture_level (channel_state (sampled w) !!! i))); [lia|].
    destruct (Z.leb_spec
                (moisture_reference_level (channel_state (sampled (cycle w)) !!! i))
                (moisture_level (channel_state (sampled (cycle w)) !!! i))); [lia|].
    destruct (Z.leb_spec
                (moisture_reference_level
                   (channel_state (sampled (cycle (cycle w))) !!! i))
                (moisture_level (channel_state (sampled (cycle (cycle w))) !!! i)));
      [lia|].
    done.
  - intros Hmax Hb. rewrite cycle_pump_runs by done. unfold retry_state, pump_on.
    rewrite Hm1, Hl1, Hr1, Ha1.
    rewrite (ok_max_attempts i _ (sampled_ok w (reachable_ok w Hw) i)).
    pose proof (cycle_pump_attempts w i Hw) as H. cbv zeta in H.
    destruct H as (_ & _ & _ & Hsa & _). rewrite Hsa, Hmax, Hm0.
    destruct (Z.leb_spec (moisture_reference_level (channel_state (sampled w) !!! i))
                (moisture_level (channel_state (sampled w) !!! i))); [lia|].
    rewrite andb_false_r. done.
  - intros Hb. unfold retry_state. rewrite Hl1, Hr1, Ha1.
    destruct (Z.leb_spec (moisture_reference_level (channel_state (sampled w) !!! i))
                (moisture_level (channel_state (sampled w) !!! i))); [done|lia].
Qed.

Lemma retry_counts_then_gives_up_witness :
  pump_attempts
    (channel_state (cycle (cycle (cycle (boot (steady_adc 660 250))))) !!! 0%fin) = 3
  ∧ retry_state
      (channel_state (cycle (cycle (cycle (boot (steady_adc 660 250))))) !!! 0%fin)
    = EXHAUSTED.
Proof.
  pose proof (retry_counts_then_gives_up (boot (steady_adc 660 250)) 0%fin
                (reachable_boot _)) as H.
  cbv zeta in H. destruct H as (H & _ & _).
  destruct H as (_ & _ & H3 & Hex); try (vm_compute; reflexivity).
  split; [exact H3 | exact Hex].
Defined.

(** ** CycleScheduler *)

Lemma set_pump_attempts_same c : set_pump_attempts (pump_attempts c) c = c.
Proof. by destruct c. Qed.

(** A channel whose readings pass the filter and that is not below its
    reference comes out of the sampling pass as it went in. *)
Lemma sense_quiet i c m mr :
  channel_ok i c →
  almostEqual (moisture_level c) (convertMeasurementToPercent m) 2 = true →
  almostEqual (moisture_reference_level c) (u8 (mr / 10)) 2 = true →
  moisture_reference_level (sense m mr c) ≤ moisture_level (sense m mr c) →
  sense m mr c = c ∧ sense_update m mr c = false.
Proof.
  intros [_ _ Hl Hr Hz] Hm Href.
  assert (Hmc : moisture_changed c m = false).
  { unfold moisture_changed. rewrite u8_id by (unfold is_u8; lia). by rewrite Hm. }
  assert (Hrc : reference_changed c mr = false).
  { unfold reference_changed. rewrite u8_id by done. by rewrite Href. }
  rewrite sense_moisture_level, sense_moisture_reference_level, Hmc, Hrc.
  intros Hle. unfold sense_update.
  rewrite sense_moisture_level, sense_moisture_reference_level, Hmc, Hrc.
  split.
  - unfold sense. rewrite Hmc, Hrc.
    destruct (Z.leb_spec (moisture_reference_level c) (moisture_level c)); [|lia].
    rewrite <- (Hz Hle). apply set_pump_attempts_same.
  - cbn [orb]. destruct (Z.ltb_spec (moisture_level c) (moisture_reference_level c));
      [lia | done].
Qed.

(** C5: when in a cycle the moisture and the reference reading of every
    channel pass the hysteresis filter unchanged and no channel is below its
    reference, [updateState] returns false, the cycle neither refreshes the
    display nor switches a pump, and it leaves [channel_state] as it was. *)
Theorem quiet_cycle_does_nothing :
  ∀ w, reachable w →
    (∀ i,
       let c := channel_state w !!! i in
       let s := channel_state (sampled w) !!! i in
       almostEqual (moisture_level c)
         (convertMeasurementToPercent (measurement_of w i)) 2 = true
       ∧ almostEqual (moisture_reference_level c)
           (u8 (measurement_ref_of w i / 10)) 2 = true
       ∧ moisture_reference_level s ≤ moisture_level s) →
    hasStateUpdate w = false
    ∧ renders (events_since w (cycle w)) = []
    ∧ pump_runs (events_since w (cycle w)) = []
    ∧ channel_state (cycle w) = channel_state w.
Proof.
  intros w Hw Hquiet.
  assert (Hsense : ∀ i,
    sense (measurement_of w i) (measurement_ref_of w i) (channel_state w !!! i)
    = channel_state w !!! i
    ∧ sense_update (measurement_of w i) (measurement_ref_of w i)
        (channel_state w !!! i) = false).
  { intros i. specialize (Hquiet i). cbv zeta in Hquiet.
    destruct Hquiet as (Hm & Hr & Hle). rewrite sampled_channel in Hle.
    by apply (sense_quiet i); [apply reachable_ok|..]. }
  assert (Hupd : hasStateUpdate w = false).
  { destruct (hasStateUpdate w) eqn:E; [|reflexivity].
    apply hasStateUpdate_true in E as [i Hi].
    destruct (Hsense i) as [_ Hf]. rewrite Hf in Hi. discriminate Hi. }
  destruct (cycle_observed w (reachable_ok w Hw)) as (_ & _ & Hp & Hr).
  rewrite Hupd in Hp, Hr.
  split; [exact Hupd|]. split; [exact Hr|]. split; [exact Hp|].
  apply vec_eq. intros i. rewrite cycle_channel. unfold pump.
  rewrite pump_on_false by (apply hasStateUpdate_false; exact Hupd).
  rewrite sampled_channel. apply Hsense.
Qed.

Lemma quiet_cycle_does_nothing_witness :
  hasStateUpdate (boot (steady_adc 150 250)) = false
  ∧ channel_state (cycle (boot (steady_adc 150 250)))
    = channel_state (boot (steady_adc 150 250)).
Proof.
  assert (H : hasStateUpdate (boot (steady_adc 150 250)) = false
              ∧ renders (events_since (boot (steady_adc 150 250))
                           (cycle (boot (steady_adc 150 250)))) = []
              ∧ pump_runs (events_since (boot (steady_adc 150 250))
                             (cycle (boot (steady_adc 150 250)))) = []
              ∧ channel_state (cycle (boot (steady_adc 150 250)))
                = channel_state (boot (steady_adc 150 250))).
  { apply quiet_cycle_does_nothing; [apply reachable_boot|].
    intros i. cbv zeta. fin4 i; vm_compute; repeat split; discriminate. }
  destruct H as (H1 & _ & _ & H4). split; [exact H1 | exact H4].
Defined.

(** C6: whenever the sampling pass leaves some channel below its reference,
    [updateState] returns true, whether or not any value changed; the cycle
    then refreshes the display once, with the rows of the sampled state,
    and runs the pump pass over every channel. *)
Theorem dry_channel_forces_update :
  ∀ w, reachable w →
    (∃ i, moisture_level (channel_state (sampled w) !!! i)
          < moisture_reference_level (channel_state (sampled w) !!! i)) →
    hasStateUpdate w = true
    ∧ renders (events_since w (cycle w)) = [display_rows (channel_state (sampled w))]
    ∧ pump_runs (events_since w (cycle w)) = pumped (channel_state (sampled w))
    ∧ channel_state (cycle w) = vmap pump (channel_state (sampled w)).
Proof.
  intros w Hw [i Hi].
  assert (Hupd : hasStateUpdate w = true).
  { apply hasStateUpdate_true. exists i. apply sense_update_true. right; right.
    by rewrite <- sampled_channel. }
  destruct (cycle_observed w (reachable_ok w Hw)) as (_ & _ & Hp & Hr).
  rewrite Hupd in Hp, Hr.
  split; [exact Hupd|]. split; [exact Hr|]. split; [exact Hp|].
  apply vec_eq. intros j. by rewrite cycle_channel, vlookup_map.
Qed.

Lemma reachable_cycles n w : reachable w → reachable (cycles n w).
Proof. intros Hw. induction n as [|n IH]; [done|]. by apply reachable_loop. Qed.

Lemma dry_channel_forces_update_witness :
  retry_state (channel_state (cycles 4 (boot (steady_adc 660 250))) !!! 0%fin) = EXHAUSTED
  ∧ channel_state (sampled (cycles 4 (boot (steady_adc 660 250))))
    = channel_state (cycles 4 (boot (steady_adc 660 250)))
  ∧ hasStateUpdate (cycles 4 (boot (steady_adc 660 250))) = true
  ∧ length (renders (events_since (cycles 4 (boot (steady_adc 660 250)))
                       (cycle (cycles 4 (boot (steady_adc 660 250)))))) = 1%nat.
Proof.
  split; [vm_compute; reflexivity|]. split; [vm_compute; reflexivity|].
  destruct (dry_channel_forces_update (cycles 4 (boot (steady_adc 660 250))))
    as (Hupd & Hr & _).
  - apply reachable_cycles, reachable_boot.
  - exists 0%fin. vm_compute. reflexivity.
  - split; [exact Hupd|]. by rewrite Hr.
Defined.

Lemma display_rows_lookup v i :
  display_rows v !! fin_to_nat i = Some (display_row i (v !!! i)).
Proof. unfold display_rows. rewrite all_channels_eq. by fin4 i. Qed.

(** C7: in a cycle whose sampling pass returns true the display refresh
    comes before every pump actuation: the cycle's events are those of the
    sampling pass (no pump, no refresh), then the refresh of the sampled
    state, then the pump pass (no refresh); so the attempt count shown for
    a channel is the count before this cycle's increment, one less than the
    stored count when the channel's pump ran. *)
Theorem render_precedes_pumps :
  ∀ w, reachable w → hasStateUpdate w = true →
    let s := channel_state (sampled w) in
    let pre := events_since w (sampled w) in
    ∃ post,
      events_since w (cycle w) = pre ++ display_events s ++ post
      ∧ (pump_runs pre = [] ∧ renders pre = [])
      ∧ renders (display_events s) = [display_rows s]
      ∧ (renders post = [] ∧ pump_runs post = pump_runs (events_since w (cycle w)))
      ∧ ∀ i,
          row_attempts <$> (display_rows s !! fin_to_nat i)
            = Some (pump_attempts (s !!! i))
          ∧ (Z.of_nat (fin_to_nat i) ∈ pump_runs post →
             pump_attempts (channel_state (cycle w) !!! i)
               = pump_attempts (s !!! i) + 1)
          ∧ (Z.of_nat (fin_to_nat i) ∉ pump_runs post →
             pump_attempts (channel_state (cycle w) !!! i) = pump_attempts (s !!! i)).
Proof.
  intros w Hw Hupd. cbv zeta.
  exists (concat ((λ i, pump_events (channel_state (sampled w) !!! i)) <$> all_channels)
          ++ sleep_events).
  destruct (cycle_observed w (reachable_ok w Hw)) as (Hpre & [Hpp Hpr] & Hp & Hr).
  rewrite Hupd in Hp, Hr.
  split; [by rewrite cycle_events, Hupd, <- !app_assoc|].
  split; [exact Hpre|]. split; [reflexivity|].
  split; [split; [exact Hpr | rewrite Hp; exact Hpp]|].
  intros i. rewrite display_rows_lookup, Hpp, elem_of_pumped, cycle_channel.
  rewrite (pump_pump_attempts i) by (apply sampled_ok, reachable_ok; exact Hw).
  split; [reflexivity|].
  destruct (pump_on (channel_state (sampled w) !!! i));
    split; intros H; (reflexivity || congruence).
Qed.

Lemma render_precedes_pumps_witness :
  ∃ post,
    events_since (boot (steady_adc 660 250)) (cycle (boot (steady_adc 660 250)))
    = events_since (boot (steady_adc 660 250)) (sampled (boot (steady_adc 660 250)))
      ++ display_events (channel_state (sampled (boot (steady_adc 660 250)))) ++ post
    ∧ renders post = [].
Proof.
  destruct (render_precedes_pumps (boot (steady_adc 660 250)) (reachable_boot _))
    as (post & Hev & _ & _ & [Hr _] & _).
  - vm_compute. reflexivity.
  - exists post. split; [exact Hev | exact Hr].
Defined.

(** ** A reference above 99 percent *)

Lemma cycle_adc_10bit w : adc_10bit (cycle w) ↔ adc_10bit w.
Proof. unfold adc_10bit. by rewrite cycle_adc_input. Qed.

Lemma cycles_adc_10bit n w : adc_10bit w → adc_10bit (cycles n w).
Proof.
  intros Hw. induction n as [|n IH]; [done|].
  apply (proj2 (cycle_adc_10bit (cycles n w))), IH.
Qed.

Lemma sampled_reference_range w i :
  adc_10bit w →
  0 ≤ moisture_reference_level (channel_state w !!! i) ≤ 102 →
  0 ≤ moisture_reference_level (channel_state (sampled w) !!! i) ≤ 102.
Proof.
  intros Hadc Hc. rewrite sampled_channel, sense_moisture_reference_level.
  destruct (reference_changed _ _); [|done].
  pose proof (measurement_ref_10bit w i Hadc) as Hmr.
  assert (Hup : measurement_ref_of w i / 10 ≤ 1023 / 10)
    by (apply Z.div_le_mono; lia).
  change (1023 / 10) with 102 in Hup.
  assert (0 ≤ measurement_ref_of w i / 10) by (apply Z.div_pos; lia).
  rewrite u8_id by (unfold is_u8; lia). done.
Qed.

Lemma reachable_reference_range w :
  reachable w → adc_10bit w →
  ∀ i, 0 ≤ moisture_reference_level (channel_state w !!! i) ≤ 102.
Proof.
  induction 1 as [adc|w Hw IH]; intros Hadc i.
  - cbn. fin4 i; cbn; lia.
  - pose proof (proj1 (cycle_adc_10bit w) Hadc) as Hadc'. rewrite cycle_channel.
    destruct (pump_levels (channel_state (sampled w) !!! i)) as (_ & -> & _).
    apply sampled_reference_range; [exact Hadc' | apply IH, Hadc'].
Qed.

(** C10: with a 10-bit ADC the reference percentage stays within 0..102 and
    the moisture percentage within 0..99; a cycle that leaves the reference
    of a channel above 99 finds the channel below its reference, does not
    reset [pump_attempts] and moves it one step towards [max_pump_attempts];
    after [n] such cycles in a row the count is
    [min (pump_attempts + n) max_pump_attempts], so from the
    [max_pump_attempts]-th such cycle on the channel is EXHAUSTED and stays
    so for as long as the reference stays above 99. *)
Theorem reference_above_99_exhausts :
  ∀ w i, reachable w → adc_10bit w →
    let c := channel_state w !!! i in
    let s := channel_state (sampled w) !!! i in
    let c' := channel_state (cycle w) !!! i in
    (0 ≤ moisture_reference_level c ≤ 102 ∧ 0 ≤ moisture_level c ≤ 99)
    ∧ (0 ≤ moisture_reference_level s ≤ 102 ∧ 0 ≤ moisture_level s ≤ 99)
    ∧ (0 ≤ moisture_reference_level c' ≤ 102 ∧ 0 ≤ moisture_level c' ≤ 99)
    ∧ (99 < moisture_reference_level s →
       moisture_level s < moisture_reference_level s
       ∧ pump_attempts c' = Z.min (pump_attempts c + 1) (max_pump_attempts c))
    ∧ (∀ n,
         (∀ k, (k < n)%nat →
            99 < moisture_reference_level (channel_state (sampled (cycles k w)) !!! i)) →
         pump_attempts (channel_state (cycles n w) !!! i)
           = Z.min (pump_attempts c + Z.of_nat n) (max_pump_attempts c)
         ∧ (max_pump_attempts c ≤ Z.of_nat n →
            retry_state (channel_state (cycles n w) !!! i) = EXHAUSTED)).
Proof.
  assert (Hstep : ∀ w i, reachable w → adc_10bit w →
    99 < moisture_reference_level (channel_state (sampled w) !!! i) →
    moisture_level (channel_state (sampled w) !!! i)
      < moisture_reference_level (channel_state (sampled w) !!! i)
    ∧ pump_attempts (channel_state (cycle w) !!! i)
      = Z.min (pump_attempts (channel_state w !!! i) + 1) 3
    ∧ retry_state (channel_state (cycle w) !!! i) ≠ OK).
  { intros w i Hw Hadc Href.
    pose proof (sampled_ok w (reachable_ok w Hw) i) as [_ _ Hl _ _].
    pose proof (reachable_ok w Hw i) as Hc.
    pose proof (cycle_pump_attempts w i Hw) as H. cbv zeta in H.
    destruct H as (Hl' & Hr' & _ & _ & Ha).
    pose proof (ok_max_attempts i _ Hc) as Hmax.
    rewrite Hmax in Ha. destruct Hc as [_ Hc _ _ _].
    unfold retry_state. rewrite Hl', Hr', Ha.
    destruct (Z.leb_spec (moisture_reference_level (channel_state (sampled w) !!! i))
                (moisture_level (channel_state (sampled w) !!! i))); [lia|].
    split; [lia|]. split.
    - destruct (Z.ltb_spec (pump_attempts (channel_state w !!! i)) 3); lia.
    - destruct (_ <? max_pump_attempts _); discriminate. }
  intros w i Hw Hadc. cbv zeta.
  pose proof (ok_max_attempts i _ (reachable_ok w Hw i)) as Hmax.
  pose proof (sampled_ok w (reachable_ok w Hw) i) as [_ _ Hsl _ _].
  pose proof (reachable_ok _ (reachable_loop w Hw) i) as [_ _ Hcl _ _].
  pose proof (reachable_ok w Hw i) as [_ _ Hl0 _ _].
  split; [split; [|done]|split; [split; [|done]|split; [split; [|done]|split]]].
  - by apply reachable_reference_range.
  - apply sampled_reference_range; [done|]. by apply reachable_reference_range.
  - apply reachable_reference_range; [by apply reachable_loop|].
    apply (proj2 (cycle_adc_10bit w)), Hadc.
  - intros Href. rewrite Hmax. destruct (Hstep w i Hw Hadc Href) as (? & ? & _). done.
  - intros n. rewrite Hmax. induction n as [|n IH]; intros Hrefs.
    + change (cycles 0 w) with w.
      pose proof (reachable_ok w Hw i) as [_ Ha _ _ _]. rewrite Hmax in Ha.
      split; [lia|]. lia.
    + destruct IH as [IH _]; [intros k Hk; apply Hrefs; lia|].
      assert (Hn : 99 < moisture_reference_level
                           (channel_state (sampled (cycles n w)) !!! i))
        by (apply Hrefs; lia).
      destruct (Hstep (cycles n w) i (reachable_cycles n w Hw)
                  (cycles_adc_10bit n w Hadc) Hn) as (_ & Ha & Hnok).
      change (cycles (S n) w) with (cycle (cycles n w)).
      pose proof (reachable_ok w Hw i) as [_ Ha0 _ _ _]. rewrite Hmax in Ha0.
      split; [lia|]. intros Hge.
      assert (Hfull : pump_attempts (channel_state (cycle (cycles n w)) !!! i) = 3)
        by lia.
      pose proof (ok_max_attempts i _
                    (reachable_ok _ (reachable_loop _ (reachable_cycles n w Hw)) i))
        as Hmax'.
      revert Hnok. unfold retry_state. rewrite Hfull, Hmax'.
      by destruct (_ <=? _).
Qed.

Lemma reference_above_99_exhausts_witness :
  moisture_level (channel_state (sampled (boot (steady_adc 150 1023))) !!! 0%fin) = 99
  ∧ moisture_reference_level
      (channel_state (sampled (boot (steady_adc 150 1023))) !!! 0%fin) = 102
  ∧ retry_state (channel_state (cycles 5 (boot (steady_adc 150 1023))) !!! 0%fin)
    = EXHAUSTED.
Proof.
  assert (Hadc : adc_10bit (boot (steady_adc 150 1023)))
    by (apply steady_adc_10bit; lia).
  pose proof (reference_above_99_exhausts (boot (steady_adc 150 1023)) 0%fin
                (reachable_boot _) Hadc) as H.
  cbv zeta in H. destruct H as (_ & _ & _ & _ & Hn).
  split; [vm_compute; reflexivity|]. split; [vm_compute; reflexivity|].
  destruct (Hn 5%nat) as [_ Hex].
  - intros k Hk. destruct k as [|[|[|[|[|k]]]]]; [vm_compute; reflexivity..|lia].
  - apply Hex. vm_compute. discriminate.
Defined.

(** * Further properties of the firmware *)

(** ** setDecoder *)

Lemma address_bits_table :
  forall_range 8 0
    (λ val, 4 * Z.land (Z.shiftr val 2) 1 + 2 * Z.land (Z.shiftr val 1) 1 + Z.land val 1
            =? val mod 8) = true.
Proof. vm_compute. reflexivity. Qed.

Lemma address_bits val :
  is_u8 val →
  4 * Z.land (Z.shiftr val 2) 1 + 2 * Z.land (Z.shiftr val 1) 1 + Z.land val 1
  = val mod 8.
Proof.
  intros Hval. apply Z.eqb_eq.
  apply (forall_range_spec 8 0 _ address_bits_table). exact Hval.
Qed.

(** X1: whatever the address lines and the enable level were before,
    [setDecoder val] for a [uint8_t] [val] first releases the output that was
    driven (if any), changes the address while nothing is driven, and ends
    with exactly output [val mod 8] enabled; it touches neither
    [channel_state] nor the ADC. *)
Theorem setDecoder_selects_output :
  ∀ val w d4 d3 d2 en t, is_u8 val →
    let w' := (setDecoder val w).2 in
    let tr := events_since w w' in
    decoder_outputs d4 d3 d2 tr = [val mod 8]
    ∧ decoder_holds d4 d3 d2 en t tr
      = (if en then [(4 * d4 + 2 * d3 + d2, t)] else []) ++ [(val mod 8, 0)]
    ∧ last_write DEC_EN tr = Some HIGH
    ∧ channel_state w' = channel_state w
    ∧ adc_reads w' = adc_reads w.
Proof.
  intros val w d4 d3 d2 en t Hval. cbv zeta.
  rewrite setDecoder_eq. cbn [snd channel_state adc_reads].
  rewrite (events_since_app w _ (setDecoder_events val)) by reflexivity.
  pose proof (address_bits val Hval) as Haddr.
  unfold setDecoder_events.
  repeat split.
  - cbn. by rewrite Haddr.
  - destruct en; cbn; by rewrite Haddr.
Qed.

Lemma setDecoder_selects_output_witness :
  decoder_outputs 1 1 1
    (events_since (boot (steady_adc 0 0)) (setDecoder 5 (boot (steady_adc 0 0))).2)
  = [5].
Proof.
  assert (H5 : is_u8 5) by (unfold is_u8; lia).
  pose proof (setDecoder_selects_output 5 (boot (steady_adc 0 0)) 1 1 1 true 7 H5) as H.
  cbv zeta in H. destruct H as (H & _). exact H.
Defined.

(** ** convertMeasurementToPercent *)

(** X2: on every [uint16_t] the binary32 computation of
    [convertMeasurementToPercent] gives exactly the integer
    [(DRY - raw) * 100 / (DRY - WET)], rounded down and cut to 0..99: the
    rounding errors of the three float operations never reach the result. *)
Theorem convertMeasurementToPercent_exact :
  ∀ raw, is_u16 raw →
    convertMeasurementToPercent raw
    = Z.min 99 (Z.max 0 ((DRY_MEASUREMENT - raw) * 100
                         / (DRY_MEASUREMENT - WET_MEASUREMENT))).
Proof.
  intros raw Hraw. unfold convertMeasurementToPercent.
  rewrite coefficient_a_eq, coefficient_b_eq.
  change (F32.of_Z 99) with (S754_finite false 12976128 (-17)).
  change (F32.of_Z 0) with (S754_zero false).
  change (Z.min 99 (Z.max 0 ((DRY_MEASUREMENT - raw) * 100
                             / (DRY_MEASUREMENT - WET_MEASUREMENT))))
    with (percent_exact raw).
  apply Z.eqb_eq.
  apply (forall_range_spec 16 0 _ percent_of_table). exact Hraw.
Qed.

Lemma convertMeasurementToPercent_exact_witness :
  convertMeasurementToPercent 300 = 70.
Proof.
  assert (H : is_u16 300) by (unfold is_u16; lia).
  rewrite (convertMeasurementToPercent_exact 300 H). reflexivity.
Defined.

Lemma percent_exact_onto_table :
  forall_range 7 0
    (λ p, (99 <? p) || (percent_exact (DRY_MEASUREMENT - (51 * p + 9) / 10) =? p)) = true.
Proof. vm_compute. reflexivity. Qed.

(** X3: the dead zones and the reach of the converter.  The result is 99
    exactly for the raw values up to 155 and 0 exactly for the raw values
    from 655 on, so 100 is never returned and the last few counts before
    each calibration point are already saturated; and every percentage
    from 0 to 99 is the result of some raw value between the calibration
    points. *)
Theorem convertMeasurementToPercent_dead_zones :
  ∀ raw p, is_u16 raw → 0 ≤ p ≤ 99 →
    (convertMeasurementToPercent raw = 99 ↔ raw ≤ 155)
    ∧ (convertMeasurementToPercent raw = 0 ↔ 655 ≤ raw)
    ∧ convertMeasurementToPercent raw ≠ 100
    ∧ ∃ raw', WET_MEASUREMENT ≤ raw' ≤ DRY_MEASUREMENT
              ∧ convertMeasurementToPercent raw' = p.
Proof.
  intros raw p Hraw Hp. rewrite convert_exact by done.
  pose proof (percent_exact_range raw) as Hrange.
  unfold percent_exact, DRY_MEASUREMENT, WET_MEASUREMENT in *.
  change (660 - 150) with 510 in *.
  pose proof (Z.div_mod ((660 - raw) * 100) 510) as Hdm.
  pose proof (Z.mod_pos_bound ((660 - raw) * 100) 510) as Hmod.
  repeat split; try lia.
  exists (660 - (51 * p + 9) / 10).
  pose proof (Z.div_mod (51 * p + 9) 10) as Hdm'.
  pose proof (Z.mod_pos_bound (51 * p + 9) 10) as Hmod'.
  split; [lia|].
  rewrite convert_exact by (unfold is_u16; lia).
  assert (Ht : (99 <? p) || (percent_exact (DRY_MEASUREMENT - (51 * p + 9) / 10) =? p)
               = true).
  { apply (forall_range_spec 7 0 _ percent_exact_onto_table).
    change (2 ^ Z.of_nat 7) with 128. lia. }
  apply orb_prop in Ht as [Ht|Ht].
  - apply Z.ltb_lt in Ht. lia.
  - apply Z.eqb_eq in Ht. exact Ht.
Qed.

Lemma convertMeasurementToPercent_dead_zones_witness :
  convertMeasurementToPercent 155 = 99
  ∧ ∃ raw', WET_MEASUREMENT ≤ raw' ≤ DRY_MEASUREMENT
            ∧ convertMeasurementToPercent raw' = 42.
Proof.
  assert (H : is_u16 155) by (unfold is_u16; lia).
  assert (Hp : 0 ≤ 42 ≤ 99) by lia.
  destruct (convertMeasurementToPercent_dead_zones 155 42 H Hp)
    as ([_ H99] & _ & _ & Honto).
  split; [apply H99; lia | exact Honto].
Defined.

(** ** updateState *)

Lemma almostEqual_true a b t : almostEqual a b t = true ↔ Z.abs (a - b) ≤ t.
Proof. rewrite almostEqual_abs. apply Z.leb_le. Qed.

(** X4: after every sampling pass the stored percentages are within the
    tolerance of the fresh ones: [moisture_level] differs from the
    percentage of this cycle's averaged sample by at most 2, and
    [moisture_reference_level] from this cycle's reference percentage by at
    most 2. *)
Theorem stored_levels_track_readings :
  ∀ w i, reachable w →
    let s := channel_state (sampled w) !!! i in
    Z.abs (moisture_level s - convertMeasurementToPercent (measurement_of w i)) ≤ 2
    ∧ Z.abs (moisture_reference_level s - u8 (measurement_ref_of w i / 10)) ≤ 2.
Proof.
  intros w i Hw. cbv zeta. destruct (reachable_ok w Hw i) as [_ _ Hl Hr _].
  rewrite sampled_channel, sense_moisture_level, sense_moisture_reference_level.
  unfold moisture_changed, reference_changed.
  rewrite (u8_id (moisture_level _)) by (unfold is_u8; lia).
  rewrite (u8_id (moisture_reference_level _)) by exact Hr.
  split.
  - destruct (almostEqual (moisture_level _) _ 2) eqn:E; cbn [negb].
    + by apply almostEqual_true.
    + rewrite Z.sub_diag. cbn. lia.
  - destruct (almostEqual (moisture_reference_level _) _ 2) eqn:E; cbn [negb].
    + by apply almostEqual_true.
    + rewrite Z.sub_diag. cbn. lia.
Qed.

Lemma stored_levels_track_readings_witness :
  Z.abs (moisture_level (channel_state (sampled (boot (steady_adc 160 250))) !!! 3%fin)
         - convertMeasurementToPercent (measurement_of (boot (steady_adc 160 250)) 3%fin))
  ≤ 2.
Proof.
  pose proof (stored_levels_track_readings (boot (steady_adc 160 250)) 3%fin
                (reachable_boot _)) as H.
  cbv zeta in H. destruct H as [H _]. exact H.
Defined.

Lemma convert_u8 m : u8 (convertMeasurementToPercent m) = convertMeasurementToPercent m.
Proof.
  unfold convertMeasurementToPercent, percent_of, saturate, u8.
  apply Z.mod_mod. lia.
Qed.

Lemma u8_u8 z : u8 (u8 z) = u8 z.
Proof. unfold u8. apply Z.mod_mod. lia. Qed.

Lemma almostEqual_refl a : almostEqual a a 2 = true.
Proof. apply almostEqual_true. rewrite Z.sub_diag. cbn. lia. Qed.

(** Sampling the same averages again changes nothing. *)
Lemma sense_settled m mr c :
  moisture_changed (sense m mr c) m = false
  ∧ reference_changed (sense m mr c) mr = false.
Proof.
  unfold moisture_changed at 1, reference_changed at 1.
  rewrite sense_moisture_level, sense_moisture_reference_level.
  unfold moisture_changed, reference_changed. split.
  - destruct (almostEqual (u8 (moisture_level c)) _ 2) eqn:E; cbn [negb].
    + by rewrite E.
    + by rewrite convert_u8, almostEqual_refl.
  - destruct (almostEqual (u8 (moisture_reference_level c)) _ 2) eqn:E; cbn [negb].
    + by rewrite E.
    + by rewrite u8_u8, almostEqual_refl.
Qed.

Lemma pump_filter_verdicts c m mr :
  moisture_changed (pump c) m = moisture_changed c m
  ∧ reference_changed (pump c) mr = reference_changed c mr.
Proof.
  unfold moisture_changed, reference_changed.
  destruct (pump_levels c) as (-> & -> & _). split; reflexivity.
Qed.

(** X5: the filter settles in one cycle.  If the averaged samples of a
    channel in the next cycle equal those of this cycle, then in the next
    cycle the filter reports no change for the moisture and none for the
    reference, and [moisture_level], [moisture_level_raw] and
    [moisture_reference_level] stay as this cycle left them; this holds in
    any state, whatever the other channels do. *)
Theorem steady_readings_change_nothing :
  ∀ w i,
    measurement_of (cycle w) i = measurement_of w i →
    measurement_ref_of (cycle w) i = measurement_ref_of w i →
    let c' := channel_state (cycle w) !!! i in
    let s' := channel_state (sampled (cycle w)) !!! i in
    moisture_changed c' (measurement_of (cycle w) i) = false
    ∧ reference_changed c' (measurement_ref_of (cycle w) i) = false
    ∧ moisture_level s' = moisture_level c'
    ∧ moisture_level_raw s' = moisture_level_raw c'
    ∧ moisture_reference_level s' = moisture_reference_level c'.
Proof.
  intros w i Hm Hmr. cbv zeta.
  rewrite (sampled_channel (cycle w)), sense_moisture_level, sense_moisture_level_raw,
    sense_moisture_reference_level, Hm, Hmr.
  assert (Hsettled :
    moisture_changed (channel_state (cycle w) !!! i) (measurement_of w i) = false
    ∧ reference_changed (channel_state (cycle w) !!! i) (measurement_ref_of w i) = false).
  { rewrite cycle_channel, sampled_channel.
    destruct (sense_settled (measurement_of w i) (measurement_ref_of w i)
                (channel_state w !!! i)) as [H1 H2].
    destruct (pump_filter_verdicts
                (sense (measurement_of w i) (measurement_ref_of w i)
                   (channel_state w !!! i))
                (measurement_of w i) (measurement_ref_of w i)) as [-> ->].
    split; [exact H1 | exact H2]. }
  destruct Hsettled as [H1 H2]. rewrite H1, H2.
  split; [reflexivity|]. split; [reflexivity|]. split; [reflexivity|].
  split; reflexivity.
Qed.

Lemma steady_readings_change_nothing_witness :
  moisture_changed (channel_state (cycle (boot (steady_adc 400 700))) !!! 0%fin)
    (measurement_of (cycle (boot (steady_adc 400 700))) 0%fin) = false.
Proof.
  pose proof (steady_readings_change_nothing (boot (steady_adc 400 700)) 0%fin) as H.
  cbv zeta in H. destruct H as (H & _); [vm_compute; reflexivity..|]. exact H.
Defined.

(** X6: the channels do not interfere.  What a cycle makes of channel [i]'s
    record is determined by that record and by the channel's own two averaged
    samples: two states that agree on these agree on the record after the
    cycle, whatever the other channels' records and readings are, although
    the display and pump pass is switched on by a flag shared by all
    channels. *)
Theorem channels_do_not_interfere :
  ∀ w1 w2 i,
    channel_state w1 !!! i = channel_state w2 !!! i →
    measurement_of w1 i = measurement_of w2 i →
    measurement_ref_of w1 i = measurement_ref_of w2 i →
    channel_state (sampled w1) !!! i = channel_state (sampled w2) !!! i
    ∧ channel_state (cycle w1) !!! i = channel_state (cycle w2) !!! i.
Proof.
  intros w1 w2 i Hc Hm Hmr.
  rewrite !cycle_channel, !sampled_channel, Hc, Hm, Hmr. split; reflexivity.
Qed.

Lemma channels_do_not_interfere_witness :
  channel_state (cycle (boot (λ n pin, match pin with
                                        | A4 => 250 | A0 => 660 | _ => 150 end))) !!! 0%fin
  = channel_state (cycle (boot (steady_adc 660 250))) !!! 0%fin.
Proof.
  eapply proj2.
  apply (channels_do_not_interfere
           (boot (λ n pin, match pin with A4 => 250 | A0 => 660 | _ => 150 end))
           (boot (steady_adc 660 250)) 0%fin); vm_compute; reflexivity.
Defined.

(** X7: the verdict of the sampling pass, in any state: [updateState]
    returns true exactly when for some channel the filter reports a change of
    the moisture percentage, or a change of the reference percentage, or the
    channel is below its reference once its record is updated. *)
Theorem updateState_verdict :
  ∀ w,
    hasStateUpdate w = true ↔
    ∃ i,
      negb (almostEqual (u8 (moisture_level (channel_state w !!! i)))
              (convertMeasurementToPercent (measurement_of w i)) 2) = true
      ∨ negb (almostEqual (u8 (moisture_reference_level (channel_state w !!! i)))
                (u8 (measurement_ref_of w i / 10)) 2) = true
      ∨ moisture_level (channel_state (sampled w) !!! i)
        < moisture_reference_level (channel_state (sampled w) !!! i).
Proof.
  intros w. rewrite hasStateUpdate_true. split; intros [i Hi]; exists i.
  - apply sense_update_true in Hi. by rewrite sampled_channel.
  - apply sense_update_true. by rewrite sampled_channel in Hi.
Qed.

(** ** The raw value kept with the percentage *)

Lemma convert_zero : convertMeasurementToPercent 0 = 99.
Proof. vm_compute. reflexivity. Qed.

(** X8: in every reachable state the stored percentage is the converted
    stored raw value, [moisture_level =
    convertMeasurementToPercent(moisture_level_raw)], and the raw value is
    an average of 16-bit sums, below 2^14: percentage and raw value are
    always written together, and the boot values 99 and 0 agree as well. *)
Theorem moisture_level_is_converted_raw :
  ∀ w, reachable w → ∀ i,
    moisture_level (channel_state w !!! i)
    = convertMeasurementToPercent (moisture_level_raw (channel_state w !!! i))
    ∧ 0 ≤ moisture_level_raw (channel_state w !!! i) < 2 ^ 14.
Proof.
  induction 1 as [adc|w Hw IH]; intros i.
  - cbn [boot channel_state]. fin4 i; (split; [exact (eq_sym convert_zero) | done]).
  - rewrite cycle_channel.
    assert (Hpump : ∀ c, moisture_level (pump c) = moisture_level c
                         ∧ moisture_level_raw (pump c) = moisture_level_raw c)
      by (intros c; unfold pump; by destruct (pump_on c)).
    destruct (Hpump (channel_state (sampled w) !!! i)) as [-> ->].
    rewrite sampled_channel, sense_moisture_level, sense_moisture_level_raw.
    destruct (moisture_changed _ _); [|apply IH].
    split; [reflexivity|].
    pose proof (measurement_of_u16 w i) as Hu. unfold measurement_of in *.
    destruct (accumulate_u16 (adc_input w) (sensor_analog_pin (channel_state w !!! i))
                (first_read w i) NUMBER_OF_MEASUREMENT_SAMPLES (0, 0)) as [Ha _];
      [done..|].
    unfold is_u16 in Ha. change (Z.of_nat NUMBER_OF_MEASUREMENT_SAMPLES) with 4.
    split; [apply Z.div_pos; lia | apply Z.div_lt_upper_bound; lia].
Qed.

Lemma moisture_level_is_converted_raw_witness :
  moisture_level (channel_state (cycle (boot (steady_adc 400 250))) !!! 1%fin)
  = convertMeasurementToPercent
      (moisture_level_raw (channel_state (cycle (boot (steady_adc 400 250))) !!! 1%fin)).
Proof.
  apply (moisture_level_is_converted_raw (cycle (boot (steady_adc 400 250)))
           (reachable_loop _ (reachable_boot _)) 1%fin).
Defined.

Lemma updateState_verdict_witness :
  hasStateUpdate (boot (steady_adc 660 250)) = true.
Proof.
  apply (proj2 (updateState_verdict (boot (steady_adc 660 250)))).
  exists 0%fin. left. vm_compute. reflexivity.
Defined.

(** ** The trace of a cycle *)

Lemma ok_duration i c : channel_ok i c → pump_duration c = 10.
Proof.
  intros [Hw _ _ _ _]. unfold wiring in Hw.
  injection Hw as -> _ _ _ _. clear. by fin4 i.
Qed.

(** The events of a cycle that starts in a reachable state, written out. *)
Lemma cycle_events_explicit w :
  (∀ i, channel_ok i (channel_state w !!! i)) →
  events_since w (cycle w) =
  concat ((λ i : fin NUMBER_OF_CHANNELS,
             setDecoder_events (4 + Z.of_nat (fin_to_nat i))
             ++ [Delay 250; DigitalWrite DEC_EN LOW]) <$> all_channels)
  ++ (if hasStateUpdate w then
        [DigitalWrite DISP_ENA HIGH;
         DisplayRefresh (display_rows (channel_state (sampled w)));
         DigitalWrite DISP_ENA LOW]
        ++ concat ((λ i, if pump_on (channel_state (sampled w) !!! i)
                         then setDecoder_events (Z.of_nat (fin_to_nat i))
                              ++ [Delay 1250; DigitalWrite DEC_EN LOW]
                         else []) <$> all_channels)
      else [])
  ++ sleep_events.
Proof.
  intros Hok. pose proof (sampled_ok w Hok) as Hs.
  rewrite cycle_events, sampled_events. unfold display_events.
  f_equal; [|f_equal; destruct (hasStateUpdate w); [f_equal|reflexivity]].
  - f_equal. apply list_fmap_ext. intros _ i _. unfold sense_events.
    by destruct (ok_decoders _ _ (Hok i)) as [-> _].
  - f_equal. apply list_fmap_ext. intros _ i _. unfold pump_events.
    destruct (ok_decoders _ _ (Hs i)) as [_ ->]. by rewrite (ok_duration _ _ (Hs i)).
Qed.

Lemma cycle_trace w : trace (cycle w) = trace w ++ events_since w (cycle w).
Proof.
  assert (H : ∃ tr, trace (cycle w) = trace w ++ tr).
  { unfold cycle. rewrite loop_eq. cbn [snd trace]. rewrite sampled_trace.
    eexists. by rewrite <- app_assoc. }
  destruct H as [tr H]. by rewrite (events_since_app w (cycle w) tr H).
Qed.

Lemma sampled_pump_off w i : hasStateUpdate w = false →
  pump_on (channel_state (sampled w) !!! i) = false.
Proof. intros H. by apply pump_on_false, hasStateUpdate_false. Qed.

Ltac split_pumps :=
  repeat match goal with |- context [pump_on ?c] => destruct (pump_on c) end.

Lemma cycle_pump_run_count w i :
  reachable w →
  pump_run_count (Z.of_nat (fin_to_nat i)) (events_since w (cycle w))
  = if pump_on (channel_state (sampled w) !!! i) then 1%nat else 0%nat.
Proof.
  intros Hw. unfold pump_run_count.
  destruct (cycle_observed w (reachable_ok w Hw)) as (_ & _ & -> & _).
  destruct (hasStateUpdate w) eqn:Hupd.
  - unfold pumped. rewrite all_channels_eq. cbn [fmap list_fmap concat].
    fin4 i; split_pumps; reflexivity.
  - by rewrite (sampled_pump_off w i Hupd).
Qed.

Lemma pump_on_iff w i :
  reachable w →
  pump_on (channel_state (sampled w) !!! i) = true ↔
  moisture_level (channel_state (sampled w) !!! i)
  < moisture_reference_level (channel_state (sampled w) !!! i)
  ∧ pump_attempts (channel_state w !!! i) < max_pump_attempts (channel_state w !!! i).
Proof.
  intros Hw. pose proof (cycle_pump_attempts w i Hw) as H. cbv zeta in H.
  destruct H as (_ & _ & _ & Hs & _).
  unfold pump_on. rewrite andb_true_iff, !Z.ltb_lt, Hs.
  rewrite (ok_max_attempts i _ (sampled_ok w (reachable_ok w Hw) i)).
  rewrite (ok_max_attempts i _ (reachable_ok w Hw i)).
  destruct (Z.leb_spec (moisture_reference_level (channel_state (sampled w) !!! i))
              (moisture_level (channel_state (sampled w) !!! i))); lia.
Qed.

(** X9: what the decoder drives in a cycle that starts in a reachable state,
    whatever its address lines were before: the four sensor outputs 4, 5, 6,
    7, one after the other, each held over a [delay(250)], and then, one
    after the other in channel order, the pump output of every channel that
    the sampling pass left below its reference with attempts to spare, each
    held over a [delay(1250)] and released before the next; no other output
    is ever driven, and no pump runs twice in a cycle.  A channel's pump runs
    in the cycle exactly when the sampling pass leaves the channel below its
    reference and its count at the start of the cycle is below the
    maximum. *)
Theorem cycle_actuation_schedule :
  ∀ w d4 d3 d2, reachable w →
    decoder_holds d4 d3 d2 false 0 (events_since w (cycle w))
    = [(4, 250); (5, 250); (6, 250); (7, 250)]
      ++ ((λ y, (y, 1250)) <$> pumped (channel_state (sampled w)))
    ∧ ∀ i,
        pump_run_count (Z.of_nat (fin_to_nat i)) (events_since w (cycle w))
        = (if pump_on (channel_state (sampled w) !!! i) then 1%nat else 0%nat)
        ∧ (pump_on (channel_state (sampled w) !!! i) = true ↔
           moisture_level (channel_state (sampled w) !!! i)
           < moisture_reference_level (channel_state (sampled w) !!! i)
           ∧ pump_attempts (channel_state w !!! i)
             < max_pump_attempts (channel_state w !!! i)).
Proof.
  intros w d4 d3 d2 Hw. split;
    [|intros i; split; [by apply cycle_pump_run_count | by apply pump_on_iff]].
  rewrite (cycle_events_explicit w (reachable_ok w Hw)).
  unfold pumped. rewrite all_channels_eq. cbn [fmap list_fmap concat fin_to_nat].
  generalize (display_rows (channel_state (sampled w))). intros rows.
  destruct (hasStateUpdate w) eqn:Hupd.
  - split_pumps; reflexivity.
  - rewrite !(sampled_pump_off w _ Hupd). reflexivity.
Qed.

Lemma cycle_actuation_schedule_witness :
  decoder_holds 1 0 1 false 0
    (events_since (boot (steady_adc 660 250)) (cycle (boot (steady_adc 660 250))))
  = [(4, 250); (5, 250); (6, 250); (7, 250); (0, 1250); (1, 1250); (2, 1250); (3, 1250)].
Proof.
  destruct (cycle_actuation_schedule (boot (steady_adc 660 250)) 1 0 1
              (reachable_boot _)) as [H _].
  etransitivity; [exact H|]. vm_compute. reflexivity.
Defined.

Lemma last_write_app pin tr1 tr2 :
  last_write pin (tr1 ++ tr2) =
  match last_write pin tr2 with Some v => Some v | None => last_write pin tr1 end.
Proof. unfold last_write. by rewrite omap_app, last_app. Qed.

Lemma cycle_pins_and_sleep w :
  reachable w →
  last_write DEC_EN (events_since w (cycle w)) = Some LOW
  ∧ last_write DISP_ENA (events_since w (cycle w))
    = (if hasStateUpdate w then Some LOW else None)
  ∧ sleep_total (events_since w (cycle w)) = 600000
  ∧ ∃ active, events_since w (cycle w) = active ++ sleep_events
              ∧ sleep_total active = 0
              ∧ last_write DEC_EN active = Some LOW.
Proof.
  intros Hw. rewrite (cycle_events_explicit w (reachable_ok w Hw)).
  rewrite all_channels_eq. cbn [fmap list_fmap concat fin_to_nat].
  generalize (display_rows (channel_state (sampled w))). intros rows.
  destruct (hasStateUpdate w).
  - split_pumps; (repeat split; [eexists; split; [by rewrite app_assoc|by split]]).
  - repeat split. eexists. split; [by rewrite app_assoc|by split].
Qed.

Lemma reachable_display_off w :
  reachable w → last_write DISP_ENA (trace w) ≠ Some HIGH.
Proof.
  induction 1 as [adc|w Hw IH]; [discriminate|].
  rewrite cycle_trace, last_write_app.
  destruct (cycle_pins_and_sleep w Hw) as (_ & -> & _).
  destruct (hasStateUpdate w); [discriminate | exact IH].
Qed.

(** X10: nothing is left powered while the device sleeps.  Every cycle that
    starts in a reachable state ends with the 75 calls of
    [Watchdog.sleep(8000)], ten minutes in all, whether or not anything was
    updated; when they begin, the last level written to [DEC_EN] is LOW, so
    no sensor and no pump is driven, and the display supply [DISP_ENA] is
    not HIGH. *)
Theorem outputs_off_while_asleep :
  ∀ w, reachable w →
    (∃ active, events_since w (cycle w) = active ++ sleep_events
               ∧ sleep_total active = 0
               ∧ last_write DEC_EN active = Some LOW)
    ∧ sleep_events = replicate 75 (WatchdogSleep 8000)
    ∧ sleep_total (events_since w (cycle w)) = 10 * 60 * 1000
    ∧ last_write DEC_EN (trace (cycle w)) = Some LOW
    ∧ last_write DISP_ENA (trace (cycle w)) ≠ Some HIGH.
Proof.
  intros w Hw. destruct (cycle_pins_and_sleep w Hw) as (Hdec & _ & Hsleep & Hact).
  split; [exact Hact|]. split; [reflexivity|]. split; [exact Hsleep|].
  split; [|apply reachable_display_off, reachable_loop, Hw].
  by rewrite cycle_trace, last_write_app, Hdec.
Qed.

Lemma outputs_off_while_asleep_witness :
  last_write DEC_EN (trace (cycle (boot (steady_adc 660 250)))) = Some LOW
  ∧ sleep_total (events_since (boot (steady_adc 660 250))
                   (cycle (boot (steady_adc 660 250)))) = 600000.
Proof.
  destruct (outputs_off_while_asleep (boot (steady_adc 660 250)) (reachable_boot _))
    as (_ & _ & Hs & Hd & _).
  split; [exact Hd | exact Hs].
Defined.

(** ** updateDisplay *)

Lemma bar_length_table :
  forall_range 7 0 (λ l, bar_length l =? l * 138 / 100) = true.
Proof. vm_compute. reflexivity. Qed.

Lemma bar_length_exact l : 0 ≤ l < 128 → bar_length l = l * 138 / 100.
Proof.
  intros Hl. apply Z.eqb_eq. apply (forall_range_spec 7 0 _ bar_length_table).
  change (2 ^ Z.of_nat 7) with 128. lia.
Qed.

Lemma renders_app tr1 tr2 : renders (tr1 ++ tr2) = renders tr1 ++ renders tr2.
Proof. apply omap_app. Qed.

Lemma renders_cycle w :
  reachable w →
  renders (trace (cycle w)) =
  renders (trace w)
  ++ (if hasStateUpdate w then [display_rows (channel_state (sampled w))] else []).
Proof.
  intros Hw. rewrite cycle_trace, renders_app.
  by destruct (cycle_observed w (reachable_ok w Hw)) as (_ & _ & _ & ->).
Qed.

Lemma display_row_ok i c :
  channel_ok i c →
  let row := display_row i c in
  1 ≤ row_number row ≤ 4
  ∧ 0 ≤ row_percent row ≤ 99
  ∧ 0 ≤ row_attempts row ≤ 3
  ∧ row_bar_color row = row_percent_color row
  ∧ (row_attempts_color row = EPD_RED ↔ row_attempts row = 3)
  ∧ (row_attempts_color row = EPD_RED → row_percent_color row = EPD_RED).
Proof.
  intros Hok. pose proof (ok_max_attempts i c Hok) as Hmax.
  destruct Hok as [_ Ha Hl _ Hz]. rewrite Hmax in Ha.
  cbv zeta. unfold display_row. cbn [row_number row_percent row_attempts row_bar_color
    row_percent_color row_attempts_color]. rewrite Hmax.
  assert (Hn : (fin_to_nat i < 4)%nat) by apply fin_to_nat_lt.
  split; [lia|]. split; [lia|]. split; [lia|]. split; [reflexivity|].
  destruct (Z.leb_spec 3 (pump_attempts c));
    destruct (Z.ltb_spec (moisture_level c) (moisture_reference_level c));
    (split; [split; intros Hred; (lia || congruence)|]); intros Hred;
    (reflexivity || congruence || (exfalso; lia)).
Qed.

(** X11: every refresh the display has ever received shows a consistent
    picture.  In the trace of a reachable state each [DisplayRefresh] has four
    rows, and on each row the channel number is 1..4, the percentage is
    0..99, the attempt count is 0..3, the bar has the colour of the
    percentage, the attempt count is red exactly when it is 3, and a red
    attempt count never stands next to a black percentage. *)
Theorem display_rows_consistent :
  ∀ w, reachable w →
    ∀ rows, rows ∈ renders (trace w) →
      length rows = 4%nat
      ∧ ∀ row, row ∈ rows →
          1 ≤ row_number row ≤ 4
          ∧ 0 ≤ row_percent row ≤ 99
          ∧ 0 ≤ row_attempts row ≤ 3
          ∧ row_bar_color row = row_percent_color row
          ∧ (row_attempts_color row = EPD_RED ↔ row_attempts row = 3)
          ∧ (row_attempts_color row = EPD_RED → row_percent_color row = EPD_RED).
Proof.
  induction 1 as [adc|w Hw IH]; intros rows Hrows.
  - cbn in Hrows. by apply elem_of_nil in Hrows.
  - rewrite renders_cycle in Hrows by exact Hw.
    apply elem_of_app in Hrows as [Hrows|Hrows]; [by apply IH|].
    destruct (hasStateUpdate w); [|by apply elem_of_nil in Hrows].
    apply list_elem_of_singleton in Hrows as ->.
    split; [unfold display_rows; by rewrite length_fmap, all_channels_eq|].
    intros row Hrow. unfold display_rows in Hrow.
    apply list_elem_of_fmap in Hrow as (i & -> & _).
    apply display_row_ok, sampled_ok, reachable_ok, Hw.
Qed.

Lemma display_rows_consistent_witness :
  length (display_rows (channel_state (sampled (boot (steady_adc 660 250))))) = 4%nat.
Proof.
  apply (display_rows_consistent (cycle (boot (steady_adc 660 250)))
           (reachable_loop _ (reachable_boot _))).
  vm_compute. apply list_elem_of_here.
Defined.

(** X12: the bar and the reference marker of a refresh, with a 10-bit ADC.
    For the state that a cycle displays, the bar length is exactly
    [moisture_level * 138 / 100] and the marker offset exactly
    [moisture_reference_level * 138 / 100] (the binary32 product loses
    nothing and the cast to [uint8_t] does not wrap); the bar is at most 136
    long, so it ends left of the text column, the marker offset is at most
    140; a red bar never passes the marker and a black bar always reaches
    it. *)
Theorem bar_and_marker_geometry :
  ∀ w i, reachable w → adc_10bit w →
    let s := channel_state (sampled w) !!! i in
    let row := display_row i s in
    row_bar_length row = moisture_level s * 138 / 100
    ∧ row_marker row = moisture_reference_level s * 138 / 100
    ∧ 0 ≤ row_bar_length row ≤ 136
    ∧ moist_lvl_bar_x_offset + row_bar_length row < moist_lvl_txt_x_offset
    ∧ 0 ≤ row_marker row ≤ 140
    ∧ (row_bar_color row = EPD_RED → row_bar_length row ≤ row_marker row)
    ∧ (row_bar_color row = EPD_BLACK → row_marker row ≤ row_bar_length row).
Proof.
  intros w i Hw Hadc. cbv zeta.
  pose proof (sampled_ok w (reachable_ok w Hw) i) as [_ _ Hl _ _].
  pose proof (sampled_reference_range w i Hadc
                (reachable_reference_range w Hw Hadc i)) as Hr.
  unfold display_row. cbn [row_bar_length row_marker row_bar_color].
  rewrite !bar_length_exact by lia.
  unfold moist_lvl_bar_x_offset, moist_lvl_txt_x_offset.
  set (l := moisture_level (channel_state (sampled w) !!! i)) in *.
  set (r := moisture_reference_level (channel_state (sampled w) !!! i)) in *.
  assert (Hl0 : 0 ≤ l * 138 / 100) by (apply Z.div_pos; lia).
  assert (Hr0 : 0 ≤ r * 138 / 100) by (apply Z.div_pos; lia).
  assert (Hl1 : l * 138 / 100 ≤ 99 * 138 / 100) by (apply Z.div_le_mono; lia).
  assert (Hr1 : r * 138 / 100 ≤ 102 * 138 / 100) by (apply Z.div_le_mono; lia).
  change (99 * 138 / 100) with 136 in Hl1. change (102 * 138 / 100) with 140 in Hr1.
  split; [reflexivity|]. split; [reflexivity|]. split; [lia|]. split; [lia|].
  split; [lia|].
  destruct (Z.ltb_spec l r) as [Hlt|Hge]; split; intros Hcol;
    try discriminate Hcol; apply Z.div_le_mono; lia.
Qed.

Lemma bar_and_marker_geometry_witness :
  row_bar_length
    (display_row 0%fin (channel_state (sampled (boot (steady_adc 400 1023))) !!! 0%fin))
  ≤ 136.
Proof.
  assert (Hadc : adc_10bit (boot (steady_adc 400 1023)))
    by (apply steady_adc_10bit; lia).
  pose proof (bar_and_marker_geometry (boot (steady_adc 400 1023)) 0%fin
                (reachable_boot _) Hadc) as H.
  cbv zeta in H. destruct H as (_ & _ & [_ H] & _). exact H.
Defined.

(** ** Watering over many cycles *)

Lemma decoder_outputs_app d4 d3 d2 tr1 tr2 :
  decoder_outputs d4 d3 d2 (tr1 ++ tr2) =
  decoder_outputs d4 d3 d2 tr1
  ++ decoder_outputs (decoder_lines d4 d3 d2 tr1).1.1 (decoder_lines d4 d3 d2 tr1).1.2
       (decoder_lines d4 d3 d2 tr1).2 tr2.
Proof.
  revert d4 d3 d2. induction tr1 as [|ev tr1 IH]; intros d4 d3 d2; [reflexivity|].
  destruct ev as [pin v| | |]; cbn [app decoder_outputs decoder_lines]; try apply IH.
  destruct pin; try apply IH.
  destruct (v =? LOW); [apply IH|]. cbn [app]. f_equal. apply IH.
Qed.

(** The outputs a cycle enables do not depend on where the address lines
    were left. *)
Lemma cycle_outputs_any_lines w d4 d3 d2 :
  reachable w →
  decoder_outputs d4 d3 d2 (events_since w (cycle w))
  = decoder_outputs 0 0 0 (events_since w (cycle w)).
Proof.
  intros Hw. rewrite (cycle_events_explicit w (reachable_ok w Hw)).
  rewrite all_channels_eq. cbn [fmap list_fmap concat fin_to_nat].
  generalize (display_rows (channel_state (sampled w))). intros rows.
  destruct (hasStateUpdate w); [split_pumps|]; reflexivity.
Qed.

Lemma cycles_trace n w : trace (cycles n w) = trace w ++ events_since w (cycles n w).
Proof.
  assert (H : ∃ tr, trace (cycles n w) = trace w ++ tr).
  { induction n as [|n [tr IH]]; [exists []; by rewrite app_nil_r|].
    change (cycles (S n) w) with (cycle (cycles n w)).
    rewrite cycle_trace, IH. eexists. by rewrite <- app_assoc. }
  destruct H as [tr H]. by rewrite (events_since_app w (cycles n w) tr H).
Qed.

Lemma events_since_cycles_S n w :
  events_since w (cycles (S n) w) =
  events_since w (cycles n w) ++ events_since (cycles n w) (cycle (cycles n w)).
Proof.
  apply events_since_app. change (cycles (S n) w) with (cycle (cycles n w)).
  rewrite cycle_trace. rewrite (cycles_trace n w) at 1. by rewrite <- app_assoc.
Qed.

Lemma pump_run_count_cycles_S y n w :
  reachable w →
  pump_run_count y (events_since w (cycles (S n) w)) =
  (pump_run_count y (events_since w (cycles n w))
   + pump_run_count y (events_since (cycles n w) (cycle (cycles n w))))%nat.
Proof.
  intros Hw. unfold pump_run_count, pump_runs.
  rewrite events_since_cycles_S, decoder_outputs_app.
  rewrite (cycle_outputs_any_lines (cycles n w)) by by apply reachable_cycles.
  by rewrite !filter_app, length_app.
Qed.

(** The retry counter over cycles that all find the channel below its
    reference. *)
Lemma dry_cycles_pump_attempts w i n :
  reachable w →
  (∀ k, (k < n)%nat →
     moisture_level (channel_state (sampled (cycles k w)) !!! i)
     < moisture_reference_level (channel_state (sampled (cycles k w)) !!! i)) →
  pump_attempts (channel_state (cycles n w) !!! i)
  = Z.min (pump_attempts (channel_state w !!! i) + Z.of_nat n) 3.
Proof.
  intros Hw. pose proof (reachable_ok w Hw i) as Hc.
  pose proof (ok_max_attempts i _ Hc) as Hmax. destruct Hc as [_ Ha _ _ _].
  induction n as [|n IH]; intros Hdry.
  - change (cycles 0 w) with w. lia.
  - change (cycles (S n) w) with (cycle (cycles n w)).
    pose proof (cycle_pump_attempts (cycles n w) i (reachable_cycles n w Hw)) as H.
    cbv zeta in H. destruct H as (_ & _ & _ & _ & H).
    rewrite (ok_max_attempts i _ (reachable_ok _ (reachable_cycles n w Hw) i)) in H.
    rewrite H, IH by (intros k Hk; apply Hdry; lia).
    destruct (Z.leb_spec
                (moisture_reference_level (channel_state (sampled (cycles n w)) !!! i))
                (moisture_level (channel_state (sampled (cycles n w)) !!! i)))
      as [Hle|_]; [specialize (Hdry n); lia|].
    destruct (Z.ltb_spec
                (Z.min (pump_attempts (channel_state w !!! i) + Z.of_nat n) 3) 3); lia.
Qed.

(** X13: watering is bounded.  Over [n] cycles in a row that all find
    channel [i] below its reference, starting in a reachable state, the
    channel's pump output is enabled exactly
    [min n (max_pump_attempts - pump_attempts)] times: once in each of the
    first cycles until the attempts are used up, and never again however
    long the channel stays dry. *)
Theorem dry_channel_is_watered_at_most_max_times :
  ∀ w i n, reachable w →
    (∀ k, (k < n)%nat →
       moisture_level (channel_state (sampled (cycles k w)) !!! i)
       < moisture_reference_level (channel_state (sampled (cycles k w)) !!! i)) →
    Z.of_nat (pump_run_count (Z.of_nat (fin_to_nat i)) (events_since w (cycles n w)))
    = Z.min (Z.of_nat n)
        (max_pump_attempts (channel_state w !!! i) - pump_attempts (channel_state w !!! i))
    ∧ (pump_run_count (Z.of_nat (fin_to_nat i)) (events_since w (cycles n w)) ≤ 3)%nat.
Proof.
  intros w i n Hw. pose proof (reachable_ok w Hw i) as Hc.
  pose proof (ok_max_attempts i _ Hc) as Hmax. destruct Hc as [_ Ha _ _ _].
  rewrite Hmax in *.
  assert (Hcount : (∀ k, (k < n)%nat →
       moisture_level (channel_state (sampled (cycles k w)) !!! i)
       < moisture_reference_level (channel_state (sampled (cycles k w)) !!! i)) →
    Z.of_nat (pump_run_count (Z.of_nat (fin_to_nat i)) (events_since w (cycles n w)))
    = Z.min (Z.of_nat n) (3 - pump_attempts (channel_state w !!! i))).
  { induction n as [|n IH]; intros Hdry.
    - unfold events_since. change (cycles 0 w) with w. rewrite drop_all. cbn. lia.
    - rewrite pump_run_count_cycles_S by exact Hw.
      rewrite Nat2Z.inj_add, IH by (intros k Hk; apply Hdry; lia).
      rewrite cycle_pump_run_count by (by apply reachable_cycles).
      pose proof (cycle_pump_attempts (cycles n w) i (reachable_cycles n w Hw)) as H.
      cbv zeta in H. destruct H as (_ & _ & _ & Hs & _).
      pose proof (dry_cycles_pump_attempts w i n Hw) as Hn.
      rewrite Hn in Hs by (intros k Hk; apply Hdry; lia).
      unfold pump_on.
      rewrite (ok_max_attempts i _
                 (sampled_ok _ (reachable_ok _ (reachable_cycles n w Hw)) i)), Hs.
      specialize (Hdry n).
      destruct (Z.leb_spec
                  (moisture_reference_level (channel_state (sampled (cycles n w)) !!! i))
                  (moisture_level (channel_state (sampled (cycles n w)) !!! i)))
        as [Hle|Hlt]; [lia|].
      destruct (Z.ltb_spec
                  (moisture_level (channel_state (sampled (cycles n w)) !!! i))
                  (moisture_reference_level (channel_state (sampled (cycles n w)) !!! i)));
        [|lia].
      cbn [andb].
      destruct (Z.ltb_spec
                  (Z.min (pump_attempts (channel_state w !!! i) + Z.of_nat n) 3) 3);
        lia. }
  intros Hdry. specialize (Hcount Hdry). split; [exact Hcount | lia].
Qed.

Lemma dry_channel_is_watered_at_most_max_times_witness :
  pump_run_count 0
    (events_since (boot (steady_adc 660 250)) (cycles 5 (boot (steady_adc 660 250))))
  = 3%nat.
Proof.
  destruct (dry_channel_is_watered_at_most_max_times (boot (steady_adc 660 250)) 0%fin 5
              (reachable_boot _)) as [H _].
  - intros k Hk. destruct k as [|[|[|[|[|k]]]]]; [vm_compute; reflexivity..|lia].
  - apply Nat2Z.inj. etransitivity; [exact H|]. vm_compute. reflexivity.
Defined.

(** ** The retry states over a cycle *)

(** X14: how the retry state of a channel moves over a cycle that starts in
    a reachable state.  It ends OK exactly when the sampling pass finds the
    level at or above the reference; a channel that was OK has no attempts
    counted and is never EXHAUSTED one cycle later; a channel that was
    EXHAUSTED is EXHAUSTED again or OK, never DRY, so pumping resumes only
    after a recovery has been seen; and a DRY channel found below its
    reference has one more attempt counted. *)
Theorem retry_state_transitions :
  ∀ w i, reachable w →
    let c := channel_state w !!! i in
    let s := channel_state (sampled w) !!! i in
    let c' := channel_state (cycle w) !!! i in
    (retry_state c' = OK ↔ moisture_reference_level s ≤ moisture_level s)
    ∧ (retry_state c = OK → pump_attempts c = 0 ∧ retry_state c' ≠ EXHAUSTED)
    ∧ (retry_state c = EXHAUSTED → retry_state c' ≠ DRY)
    ∧ (retry_state c = DRY → moisture_level s < moisture_reference_level s →
       pump_attempts c' = pump_attempts c + 1).
Proof.
  intros w i Hw. cbv zeta.
  pose proof (reachable_ok w Hw i) as Hc.
  pose proof (ok_max_attempts i _ Hc) as Hmax.
  pose proof (ok_max_attempts i _ (reachable_ok _ (reachable_loop w Hw) i)) as Hmax'.
  destruct Hc as [_ Ha _ _ Hz].
  pose proof (cycle_pump_attempts w i Hw) as H. cbv zeta in H.
  destruct H as (Hl & Hr & _ & _ & Hc').
  unfold retry_state. rewrite Hl, Hr, Hc', Hmax, Hmax'.
  destruct (Z.leb_spec (moisture_reference_level (channel_state (sampled w) !!! i))
              (moisture_level (channel_state (sampled w) !!! i))) as [Hs|Hs];
    destruct (Z.leb_spec (moisture_reference_level (channel_state w !!! i))
                (moisture_level (channel_state w !!! i))) as [Hok|Hdry];
    destruct (Z.ltb_spec (pump_attempts (channel_state w !!! i)) 3) as [Hlt|Hge];
    repeat match goal with
           | |- context [?a <? 3] => destruct (Z.ltb_spec a 3)
           end;
    repeat split; intros; try discriminate; try lia; try reflexivity;
    try (exfalso; lia).
Qed.

Lemma retry_state_transitions_witness :
  retry_state (channel_state (cycle (cycles 3 (boot (steady_adc 660 250)))) !!! 0%fin)
  ≠ DRY.
Proof.
  pose proof (retry_state_transitions (cycles 3 (boot (steady_adc 660 250))) 0%fin
                (reachable_cycles 3 _ (reachable_boot _))) as H.
  cbv zeta in H. destruct H as (_ & _ & H & _).
  apply H. vm_compute. reflexivity.
Defined.

(** ** The sample count *)

(** X15: the bound on [NUMBER_OF_MEASUREMENT_SAMPLES].  With readings in
    0..1023 the sampling loop is exact for every number of rounds up to 64:
    both accumulators hold the unwrapped sums, and [2 * k] conversions are
    taken; at 65 rounds of full-scale readings the 16-bit sums wrap. *)
Theorem sampleLoop_exact_up_to_64_rounds :
  ∀ w pin k, adc_10bit w → (k ≤ 64)%nat →
    (sampleLoop pin k w).1
    = (sum_reads (adc_input w) pin (adc_reads w) k,
       sum_reads (adc_input w) MOIST_REF (S (adc_reads w)) k)
    ∧ adc_reads (sampleLoop pin k w).2 = (adc_reads w + 2 * k)%nat
    ∧ (sampleLoop A0 65 (boot (steady_adc 1023 1023))).1 = (959, 959)
    ∧ sum_reads (steady_adc 1023 1023) A0 0 65 = 66495.
Proof.
  intros w pin k Hadc Hk. rewrite sampleLoop_eq. cbn [fst snd adc_reads].
  rewrite accumulate_exact by (done || lia).
  split; [f_equal; lia|]. split; [reflexivity|]. split; vm_compute; reflexivity.
Qed.

Lemma sampleLoop_exact_up_to_64_rounds_witness :
  (sampleLoop A0 64 (boot (steady_adc 1023 1023))).1 = (65472, 65472).
Proof.
  assert (Hadc : adc_10bit (boot (steady_adc 1023 1023)))
    by (apply steady_adc_10bit; lia).
  assert (Hk : (64 ≤ 64)%nat) by lia.
  destruct (sampleLoop_exact_up_to_64_rounds (boot (steady_adc 1023 1023)) A0 64
              Hadc Hk) as (H & _).
  etransitivity; [exact H|]. vm_compute. reflexivity.
Defined.

(** ** A quiet second cycle *)

Lemma sense_idempotent m mr c : sense m mr (sense m mr c) = sense m mr c.
Proof.
  destruct (sense_settled m mr c) as [Hm Hr].
  pose proof (sense_pump_attempts m mr c) as Ha.
  unfold sense at 1. rewrite Hm, Hr.
  destruct (Z.leb_spec (moisture_reference_level (sense m mr c))
              (moisture_level (sense m mr c))); [|reflexivity].
  rewrite <- Ha. apply set_pump_attempts_same.
Qed.

(** X16: steady readings and no dry channel give a quiet cycle.  If the
    sampling pass of a cycle leaves no channel below its reference, and the
    next cycle measures the same averages on every channel, then in the next
    cycle [updateState] returns false, the display is not refreshed, no pump
    output is enabled and [channel_state] stays as it is. *)
Theorem steady_ok_readings_give_quiet_cycle :
  ∀ w, reachable w →
    (∀ i,
       moisture_reference_level (channel_state (sampled w) !!! i)
       ≤ moisture_level (channel_state (sampled w) !!! i)
       ∧ measurement_of (cycle w) i = measurement_of w i
       ∧ measurement_ref_of (cycle w) i = measurement_ref_of w i) →
    hasStateUpdate (cycle w) = false
    ∧ renders (events_since (cycle w) (cycle (cycle w))) = []
    ∧ pump_runs (events_since (cycle w) (cycle (cycle w))) = []
    ∧ channel_state (cycle (cycle w)) = channel_state (cycle w).
Proof.
  intros w Hw Hsteady.
  assert (Hsame : ∀ i, channel_state (cycle w) !!! i = channel_state (sampled w) !!! i).
  { intros i. destruct (Hsteady i) as (Hok & _). rewrite cycle_channel.
    unfold pump. by rewrite pump_on_false. }
  assert (Hsense : ∀ i,
    sense (measurement_of (cycle w) i) (measurement_ref_of (cycle w) i)
      (channel_state (cycle w) !!! i) = channel_state (cycle w) !!! i
    ∧ sense_update (measurement_of (cycle w) i) (measurement_ref_of (cycle w) i)
        (channel_state (cycle w) !!! i) = false).
  { intros i. destruct (Hsteady i) as (Hok & -> & ->). rewrite Hsame.
    rewrite sampled_channel in Hok |- *.
    destruct (sense_settled (measurement_of w i) (measurement_ref_of w i)
                (channel_state w !!! i)) as [Hm Hr].
    split; [apply sense_idempotent|].
    unfold sense_update. rewrite sense_idempotent, Hm, Hr. cbn [orb].
    apply Z.ltb_ge. exact Hok. }
  assert (Hupd : hasStateUpdate (cycle w) = false).
  { destruct (hasStateUpdate (cycle w)) eqn:E; [|reflexivity].
    apply hasStateUpdate_true in E as [i Hi].
    destruct (Hsense i) as [_ Hf]. rewrite Hf in Hi. discriminate Hi. }
  destruct (cycle_observed (cycle w) (reachable_ok _ (reachable_loop w Hw)))
    as (_ & _ & Hp & Hr).
  rewrite Hupd in Hp, Hr.
  split; [exact Hupd|]. split; [exact Hr|]. split; [exact Hp|].
  apply vec_eq. intros i. rewrite cycle_channel. unfold pump.
  rewrite (sampled_pump_off (cycle w) i Hupd).
  rewrite sampled_channel. apply Hsense.
Qed.

Lemma steady_ok_readings_give_quiet_cycle_witness :
  hasStateUpdate (boot (steady_adc 400 250)) = true
  ∧ hasStateUpdate (cycle (boot (steady_adc 400 250))) = false.
Proof.
  split; [vm_compute; reflexivity|].
  apply (steady_ok_readings_give_quiet_cycle (boot (steady_adc 400 250))
           (reachable_boot _)).
  intros i. fin4 i; vm_compute; repeat split; discriminate.
Defined.
